(** * uPyLoader: the [Connection] base class (src/connection.py)

    A shallow embedding of the abstract [Connection] class that drives a
    MicroPython REPL, and of the background reader thread it runs.

    - Methods of the class are programs in a small free monad [prog] whose
      operations are the things a method can do to [self]: read or write an
      attribute, use [self._auto_reader_lock], call [time.sleep], or invoke
      one of the overridable methods ([self.send_line(...)] and friends).
    - A concrete class is a method table [Class W] over the state [W] of its
      transport; the base class is the table in which every abstract method
      raises [NotImplementedError].
    - [_reader_thread_routine] is a program-counter machine, one counter per
      source line, so that it can be interleaved with a foreground caller. *)

From Stdlib Require Import String Ascii List Bool Arith QArith Lia.
From ExtLib Require Import Structures.Monad.
Import ListNotations.
Import MonadNotation.
Local Open Scope string_scope.
Local Open Scope monad_scope.
Local Open Scope nat_scope.

Set Implicit Arguments.

(** ** Python values used by the class *)

(** Characters that cannot be typed inside a literal. *)
Definition dquote : string := String "034"%char EmptyString.
(** ["\r"], ["\5"], ["\4"], ["\3"] *)
Definition CR : string := String "013"%char EmptyString.
Definition CTRL_E : string := String "005"%char EmptyString.
Definition CTRL_D : string := String "004"%char EmptyString.
Definition CTRL_C : string := String "003"%char EmptyString.

(** [template.format(arg)] with one argument: the replacement field [{}] is
    replaced by the argument, every other character is copied.  The two
    templates of the class have one field each and no escaped brace. *)
Fixpoint format (template arg : string) : string :=
  match template with
  | EmptyString => EmptyString
  | String "{"%char (String "}"%char rest) => arg ++ format rest arg
  | String c rest => String c (format rest arg)
  end.

(** Truth value of a [str] in a condition: empty strings are false. *)
Definition truthy (s : string) : bool :=
  match s with
  | EmptyString => false
  | String _ _ => true
  end.

(** Exceptions.  [UserError cls] is an exception of a class that
    connection.py does not itself define or raise; it is what an overriding
    method of a subclass may raise. *)
Inductive exn : Type :=
| NotImplementedError
| TypeError_missing (func param : string)
| RuntimeError (msg : string)
| UserError (cls : string).


Inductive outcome (A : Type) : Type :=
| Ok (a : A)
| Raised (e : exn).
Arguments Raised {A} e.

(** ** Threads, the connection object and the operations on it *)

Inductive tid : Type := Foreground | Reader.

Definition tid_eqb (a b : tid) : bool :=
  match a, b with
  | Foreground, Foreground | Reader, Reader => true
  | _, _ => false
  end.

(** Opaque handle of the GUI terminal passed to [__init__]. *)
Inductive Terminal : Type := TerminalWidget (id : nat).

(** The attributes set by [Connection.__init__].  [_auto_reader_lock] is a
    [threading.Lock]: [None] when unlocked, [Some t] when locked, [t] being
    the thread whose [acquire] locked it. *)
Record Connection : Type := mkConnection {
  _terminal : option Terminal;
  _reader_running : bool;
  _auto_read_enabled : bool;
  _auto_reader_lock : option tid
}.

Definition __init__ (terminal : option Terminal) : Connection :=
  {| _terminal := terminal;
     _reader_running := false;
     _auto_read_enabled := true;
     _auto_reader_lock := None |}.

Definition set_reader_running (b : bool) (c : Connection) : Connection :=
  {| _terminal := _terminal c;
     _reader_running := b;
     _auto_read_enabled := _auto_read_enabled c;
     _auto_reader_lock := _auto_reader_lock c |}.

Definition set_auto_read_enabled (b : bool) (c : Connection) : Connection :=
  {| _terminal := _terminal c;
     _reader_running := _reader_running c;
     _auto_read_enabled := b;
     _auto_reader_lock := _auto_reader_lock c |}.

Definition set_lock (l : option tid) (c : Connection) : Connection :=
  {| _terminal := _terminal c;
     _reader_running := _reader_running c;
     _auto_read_enabled := _auto_read_enabled c;
     _auto_reader_lock := l |}.

(** What a method body can do.  [SendLine text None] is the call
    [self.send_line(text)], [SendLine text (Some e)] is
    [self.send_line(text, e)]. *)
Inductive call : Type :=
| GetReaderRunning
| SetReaderRunning (b : bool)
| GetAutoReadEnabled
| SetAutoReadEnabled (b : bool)
| LockAcquire
| LockRelease
| Sleep (secs : Q)
| IsConnected
| Disconnect
| ReadLine
| ReadAll
| SendLine (line_text : string) (ending : option string)
| SendCharacter (char : string)
| ListFiles
| WriteFile (file_name text : string)
| ReadFile (file_name : string).

(** Type of the value a call returns. *)
Definition resp (c : call) : Type :=
  match c with
  | GetReaderRunning | GetAutoReadEnabled | IsConnected => bool
  | ReadLine | ReadAll | ReadFile _ => string
  | ListFiles => list string
  | _ => unit
  end.

(** Attribute accesses are internal; everything else is recorded. *)
Definition observable (c : call) : bool :=
  match c with
  | GetReaderRunning | SetReaderRunning _
  | GetAutoReadEnabled | SetAutoReadEnabled _ => false
  | _ => true
  end.

(** Method bodies. *)
Inductive prog (A : Type) : Type :=
| Ret (a : A)
| Raise (e : exn)
| Vis (c : call) (k : resp c -> prog A).
Arguments Raise {A} e.

Fixpoint prog_bind {A B : Type} (p : prog A) (f : A -> prog B) : prog B :=
  match p with
  | Ret a => f a
  | Raise e => Raise e
  | Vis c k => Vis c (fun r => prog_bind (k r) f)
  end.

#[export] Instance Monad_prog : Monad prog :=
  {| ret := @Ret; bind := @prog_bind |}.

Definition invoke (c : call) : prog (resp c) := Vis c (fun r => Ret r).

(** ** Classes: the overridable methods *)

(** The method table of a concrete class whose transport state is [W].
    [send_line_default] is the default value of the parameter [ending] of
    [send_line]: [None] when the parameter is required, as it is in
    [def send_line(self, line_text, ending)].  An overriding method works on
    the transport; the attributes of [Connection] are read and written by the
    code of the base class and by callers, through the attribute operations
    of [call]. *)
Record Class (W : Type) : Type := mkClass {
  is_connected : W -> outcome bool * W;
  disconnect : W -> outcome unit * W;
  read_line : W -> outcome string * W;
  read_all : W -> outcome string * W;
  send_line_default : option string;
  send_line : string -> string -> W -> outcome unit * W;
  send_character : string -> W -> outcome unit * W;
  list_files : W -> outcome (list string) * W;
  write_file : string -> string -> W -> outcome unit * W;
  read_file : string -> W -> outcome string * W
}.

(** Binding of the arguments of a call of [send_line]: a missing [ending]
    takes the default, and is a [TypeError] when there is none; the body
    does not run then. *)
Definition call_send_line {W : Type} (cls : Class W)
    (line_text : string) (ending : option string) (w : W)
  : outcome unit * W :=
  match ending, send_line_default cls with
  | Some e, _ => send_line cls line_text e w
  | None, Some d => send_line cls line_text d w
  | None, None => (Raised (TypeError_missing "send_line" "ending"), w)
  end.

(** Lines 12-31 and 63-70: [raise NotImplementedError()]. *)
Definition abstract {W A : Type} (w : W) : outcome A * W :=
  (Raised NotImplementedError, w).

(** The class [Connection] itself: nothing is overridden. *)
Definition Connection_class (W : Type) : Class W :=
  {| is_connected := abstract;
     disconnect := abstract;
     read_line := abstract;
     read_all := abstract;
     send_line_default := None;
     send_line := fun _ _ => abstract;
     send_character := fun _ => abstract;
     list_files := abstract;
     write_file := fun _ _ => abstract;
     read_file := fun _ => abstract |}.

(** ** Running a method *)

Definition event : Type := (tid * call)%type.

Record machine (W : Type) : Type := mkMachine {
  self : Connection;
  world : W;
  log : list event
}.

Definition record {W : Type} (t : tid) (c : call) (m : machine W) : list event :=
  if observable c then log m ++ [(t, c)] else log m.

Definition with_self {W : Type} (t : tid) (c : call) (s : Connection)
    (m : machine W) : machine W :=
  {| self := s; world := world m; log := record t c m |}.

Definition with_world {W A : Type} (t : tid) (c : call) (m : machine W)
    (r : outcome A * W) : option (outcome A * machine W) :=
  Some (fst r, {| self := self m; world := snd r; log := record t c m |}).

(** One call made by thread [t].  [None] means the call cannot proceed yet:
    [acquire] on a locked lock blocks.  [release] on an unlocked lock raises
    [RuntimeError]; any thread may release a locked lock. *)
Definition perform {W : Type} (cls : Class W) (t : tid) (c : call)
    (m : machine W) : option (outcome (resp c) * machine W) :=
  match c as c0 return option (outcome (resp c0) * machine W) with
  | GetReaderRunning =>
      Some (Ok (_reader_running (self m)), with_self t GetReaderRunning (self m) m)
  | SetReaderRunning b =>
      Some (Ok tt, with_self t (SetReaderRunning b) (set_reader_running b (self m)) m)
  | GetAutoReadEnabled =>
      Some (Ok (_auto_read_enabled (self m)), with_self t GetAutoReadEnabled (self m) m)
  | SetAutoReadEnabled b =>
      Some (Ok tt, with_self t (SetAutoReadEnabled b) (set_auto_read_enabled b (self m)) m)
  | LockAcquire =>
      match _auto_reader_lock (self m) with
      | None => Some (Ok tt, with_self t LockAcquire (set_lock (Some t) (self m)) m)
      | Some _ => None
      end
  | LockRelease =>
      match _auto_reader_lock (self m) with
      | None => Some (Raised (RuntimeError "release unlocked lock"),
                      with_self t LockRelease (self m) m)
      | Some _ => Some (Ok tt, with_self t LockRelease (set_lock None (self m)) m)
      end
  | Sleep secs => Some (Ok tt, with_self t (Sleep secs) (self m) m)
  | IsConnected => with_world t IsConnected m (is_connected cls (world m))
  | Disconnect => with_world t Disconnect m (disconnect cls (world m))
  | ReadLine => with_world t ReadLine m (read_line cls (world m))
  | ReadAll => with_world t ReadAll m (read_all cls (world m))
  | SendLine txt e => with_world t (SendLine txt e) m (call_send_line cls txt e (world m))
  | SendCharacter ch => with_world t (SendCharacter ch) m (send_character cls ch (world m))
  | ListFiles => with_world t ListFiles m (list_files cls (world m))
  | WriteFile f txt => with_world t (WriteFile f txt) m (write_file cls f txt (world m))
  | ReadFile f => with_world t (ReadFile f) m (read_file cls f (world m))
  end.

(** A whole method run by thread [t] with nothing else running. *)
Fixpoint exec {W A : Type} (cls : Class W) (t : tid) (p : prog A)
    (m : machine W) : option (outcome A * machine W) :=
  match p with
  | Ret a => Some (Ok a, m)
  | Raise e => Some (Raised e, m)
  | Vis c k =>
      match perform cls t c m with
      | None => None
      | Some (Ok r, m') => exec cls t (k r) m'
      | Some (Raised e, m') => Some (Raised e, m')
      end
  end.

(** ** The methods of [Connection] that have a body (lines 24-51) *)

Definition read_junk : prog unit :=
  _ <- invoke ReadAll ;; ret tt.

Definition send_start_paste : prog unit := invoke (SendCharacter CTRL_E).
Definition send_end_paste : prog unit := invoke (SendCharacter CTRL_D).
Definition send_kill : prog unit := invoke (SendCharacter CTRL_C).

Definition run_file_open : string :=
  "with open(" ++ dquote ++ "{}" ++ dquote ++ ") as f:".
Definition run_file_exec : string := "    exec(f.read(), globals())".

Definition run_file (file_name globals_init : string) : prog unit :=
  send_start_paste ;;
  (if truthy globals_init then invoke (SendLine globals_init (Some CR)) else ret tt) ;;
  invoke (SendLine (format run_file_open file_name) (Some CR)) ;;
  invoke (SendLine run_file_exec (Some CR)) ;;
  send_end_paste.

Definition remove_file_stmt : string :=
  "import os; os.remove(" ++ dquote ++ "{}" ++ dquote ++ ")".

Definition remove_file (file_name : string) : prog unit :=
  invoke (SendLine (format remove_file_stmt file_name) None).

(** ** The background reader (lines 53-61) and its interleavings *)

(** Where the reader thread is in [_reader_thread_routine]. *)
Inductive reader_pc : Type :=
| R_start                 (* line 54: self._reader_running = True *)
| R_test                  (* line 55: while self._reader_running *)
| R_acquire               (* line 56: self._auto_reader_lock.acquire() *)
| R_check_auto            (* lines 57-58: x = ''; if self._auto_read_enabled *)
| R_read                  (* line 59: x = self.read_line() *)
| R_release (x : string)  (* line 60: self._auto_reader_lock.release() *)
| R_sleep (x : string)    (* line 61: time.sleep(0.1 if x == '' else 0) *)
| R_exit                  (* the loop was left *)
| R_died (e : exn).       (* an exception left the routine *)

(** A foreground caller running a method next to the reader thread. *)
Record config (W : Type) : Type := mkConfig {
  mach : machine W;
  fg : prog unit;
  rd : reader_pc
}.

Definition sleep_secs (x : string) : Q :=
  if String.eqb x EmptyString then (1 # 10)%Q else 0%Q.

(** The reader performs [c0] and continues at [next r]; it stays where it
    is while [c0] blocks and dies when [c0] raises. *)
Definition reader_do {W : Type} (cls : Class W) (c0 : call)
    (next : resp c0 -> reader_pc) (c : config W) : config W :=
  match perform cls Reader c0 (mach c) with
  | None => c
  | Some (Ok r, m') => {| mach := m'; fg := fg c; rd := next r |}
  | Some (Raised e, m') => {| mach := m'; fg := fg c; rd := R_died e |}
  end.

(** One step of the reader thread. *)
Definition _reader_thread_routine {W : Type} (cls : Class W)
    (c : config W) : config W :=
  match rd c with
  | R_start => reader_do cls (SetReaderRunning true) (fun _ => R_test) c
  | R_test =>
      reader_do cls GetReaderRunning
        (fun b : bool => if b then R_acquire else R_exit) c
  | R_acquire => reader_do cls LockAcquire (fun _ => R_check_auto) c
  | R_check_auto =>
      reader_do cls GetAutoReadEnabled
        (fun b : bool => if b then R_read else R_release EmptyString) c
  | R_read => reader_do cls ReadLine (fun x : string => R_release x) c
  | R_release x => reader_do cls LockRelease (fun _ => R_sleep x) c
  | R_sleep x => reader_do cls (Sleep (sleep_secs x)) (fun _ => R_test) c
  | R_exit => c
  | R_died _ => c
  end.

(** One step of the foreground caller. *)
Definition foreground_step {W : Type} (cls : Class W)
    (c : config W) : config W :=
  match fg c with
  | Vis c0 k =>
      match perform cls Foreground c0 (mach c) with
      | None => c
      | Some (Ok r, m') => {| mach := m'; fg := k r; rd := rd c |}
      | Some (Raised e, m') => {| mach := m'; fg := Raise e; rd := rd c |}
      end
  | _ => c
  end.

Definition step {W : Type} (cls : Class W) (c : config W) (t : tid) : config W :=
  match t with
  | Foreground => foreground_step cls c
  | Reader => _reader_thread_routine cls c
  end.

(** An interleaving is the list of the threads in the order they move. *)
Definition run {W : Type} (cls : Class W) (sch : list tid) (c : config W)
  : config W :=
  fold_left (step cls) sch c.

(** A fresh connection on transport state [w]: the caller is about to run
    [p] and the reader thread has just been started. *)
Definition start {W : Type} (w : W) (p : prog unit) : config W :=
  {| mach := {| self := __init__ None; world := w; log := [] |};
     fg := p;
     rd := R_start |}.

(** ** A transport to run the class on *)

Record Transport : Type := mkTransport {
  written : list string;
  inbound : list string
}.

(** Modelled from the spec: the concrete subclasses of [Connection] (serial
    port, network socket) are not in connection.py.  "sendLine(text,
    lineEnding): writes text followed by lineEnding bytes"; "sendCharacter(ch):
    writes a single control or printable byte"; "readLine(): returns empty
    string on no data".  [send_line] keeps the signature declared in the base
    class; the methods the description leaves open stay abstract. *)
Definition Wire : Class Transport :=
  {| is_connected := abstract;
     disconnect := abstract;
     read_line := fun w =>
       match inbound w with
       | [] => (Ok EmptyString, w)
       | l :: rest => (Ok l, {| written := written w; inbound := rest |})
       end;
     read_all := abstract;
     send_line_default := None;
     send_line := fun line_text ending w =>
       (Ok tt, {| written := written w ++ [line_text ++ ending];
                  inbound := inbound w |});
     send_character := fun char w =>
       (Ok tt, {| written := written w ++ [char]; inbound := inbound w |});
     list_files := abstract;
     write_file := fun _ _ => abstract;
     read_file := fun _ => abstract |}.

(** [Wire] with a [read_line] that fails. *)
Definition Faulty : Class Transport :=
  {| is_connected := abstract;
     disconnect := abstract;
     read_line := fun w => (Raised (UserError "OSError"), w);
     read_all := abstract;
     send_line_default := None;
     send_line := send_line Wire;
     send_character := send_character Wire;
     list_files := abstract;
     write_file := fun _ _ => abstract;
     read_file := fun _ => abstract |}.

Definition idle : Transport := {| written := []; inbound := [] |}.

(** ** Vocabulary of the statements *)

(** The bytes [run_file] is expected to put on the wire. *)
Definition paste_session (file_name globals_init : string) : list string :=
  [CTRL_E]
  ++ (if String.eqb globals_init EmptyString then [] else [globals_init ++ CR])
  ++ [("with open(" ++ dquote ++ file_name ++ dquote ++ ") as f:") ++ CR;
      "    exec(f.read(), globals())" ++ CR;
      CTRL_D].

(** The calls behind them. *)
Definition paste_calls (file_name globals_init : string) : list call :=
  [SendCharacter CTRL_E]
  ++ (if String.eqb globals_init EmptyString then []
      else [SendLine globals_init (Some CR)])
  ++ [SendLine ("with open(" ++ dquote ++ file_name ++ dquote ++ ") as f:") (Some CR);
      SendLine "    exec(f.read(), globals())" (Some CR);
      SendCharacter CTRL_D].

Definition by_thread (t : tid) (cs : list call) : list event :=
  map (fun c => (t, c)) cs.

(** The statement [remove_file] builds. *)
Definition os_remove (file_name : string) : string :=
  "import os; os.remove(" ++ dquote ++ file_name ++ dquote ++ ")".

(** A connection that was constructed and never opened. *)
Definition fresh {W : Type} (w : W) : machine W :=
  {| self := __init__ None; world := w; log := [] |}.

(** [m'] is [m] after the calls [cs] of the foreground left the attributes
    and the transport as they were. *)
Definition untouched {W : Type} (m : machine W) (cs : list call) : machine W :=
  {| self := self m; world := world m; log := log m ++ by_thread Foreground cs |}.




(** *** Interleavings *)

(** The reader is between its [acquire] and its [release], or died there. *)
Definition holds_guard (pc : reader_pc) : bool :=
  match pc with
  | R_check_auto | R_read | R_release _ | R_died _ => true
  | _ => false
  end.

Definition guard_of (pc : reader_pc) : option tid :=
  if holds_guard pc then Some Reader else None.

(** Calls that neither use the lock nor set [_reader_running] to [True]:
    line 54 is the only place of the class that does the latter, and lines 56
    and 60 the only ones that do the former. *)
Definition quiet_call (c : call) : bool :=
  match c with
  | LockAcquire | LockRelease | SetReaderRunning true => false
  | _ => true
  end.

Fixpoint quiet {A : Type} (p : prog A) : Prop :=
  match p with
  | Ret _ => True
  | Raise _ => True
  | Vis c k => quiet_call c = true /\ forall r, quiet (k r)
  end.

(** The lock is held by the reader alone, and exactly between lines 56 and
    60, next to a caller that leaves it alone. *)
Definition guarded {W : Type} (c : config W) : Prop :=
  quiet (fg c) /\ _auto_reader_lock (self (mach c)) = guard_of (rd c).

(** The flag is down and the reader is past line 54. *)
Definition winding_down {W : Type} (c : config W) : Prop :=
  guarded c /\ _reader_running (self (mach c)) = false /\ rd c <> R_start.

Definition is_reader_read (e : event) : bool :=
  match e with
  | (Reader, ReadLine) => true
  | _ => false
  end.

(** Number of [read_line] calls the reader has made. *)
Definition reader_reads (l : list event) : nat :=
  length (filter is_reader_read l).

(** Number of [read_line] calls of the reader that fall after a start-paste
    byte of the foreground and before the end-paste byte that follows. *)
Fixpoint reads_inside_paste (inside : bool) (l : list event) : nat :=
  match l with
  | [] => 0
  | (Foreground, SendCharacter ch) :: rest =>
      reads_inside_paste
        (if String.eqb ch CTRL_E then true
         else if String.eqb ch CTRL_D then false else inside) rest
  | (Reader, ReadLine) :: rest =>
      (if inside then 1 else 0) + reads_inside_paste inside rest
  | _ :: rest => reads_inside_paste inside rest
  end.

(** The reader stays out of the paste session of [p] in every interleaving. *)
Definition session_exclusive {W : Type} (cls : Class W) (w : W) (p : prog unit) : Prop :=
  forall sch : list tid,
    reads_inside_paste false (log (mach (run cls sch (start w p)))) = 0.

Definition turns (t : tid) (sch : list tid) : nat :=
  length (filter (tid_eqb t) sch).

Definition stopped (pc : reader_pc) : bool :=
  match pc with
  | R_exit | R_died _ => true
  | _ => false
  end.

(** Reader steps from [pc] to the end of the routine once the loop test
    fails, and whether the [read_line] of the current iteration is ahead. *)
Definition steps_left (pc : reader_pc) : nat :=
  match pc with
  | R_start => 7
  | R_acquire => 6
  | R_check_auto => 5
  | R_read => 4
  | R_release _ => 3
  | R_sleep _ => 2
  | R_test => 1
  | R_exit | R_died _ => 0
  end.

Definition reads_left (pc : reader_pc) : nat :=
  match pc with
  | R_acquire | R_check_auto | R_read => 1
  | _ => 0
  end.

(** From [c] on the reader makes at most one more [read_line]. *)
Definition one_more_read_at_most {W : Type} (cls : Class W) (c : config W) : Prop :=
  forall sch : list tid,
    reader_reads (log (mach (run cls sch c))) <= reader_reads (log (mach c)) + 1.

(** [self._reader_running = False], as a caller would write it. *)
Definition clear_reader_running : prog unit :=
  invoke (SetReaderRunning false).

(** A reader at its loop test with the flag up, the guard free and one line
    waiting on the wire. *)
Definition looping : config Transport :=
  {| mach := {| self := set_reader_running true (__init__ None);
                world := {| written := []; inbound := ["OK"] |};
                log := [] |};
     fg := Ret tt;
     rd := R_test |}.

(** The caller cleared the flag before the reader thread, already started,
    reached line 54. *)
Definition cleared_too_early : config Transport :=
  run Wire [Foreground] (start idle clear_reader_running).

(** The flag went down just after the reader passed the loop test. *)
Definition stopping : config Transport :=
  {| mach := {| self := __init__ None;
                world := {| written := []; inbound := ["OK"] |};
                log := [] |};
     fg := Ret tt;
     rd := R_acquire |}.

(** A reader about to call a [read_line] that fails. *)
Definition reading : config Transport :=
  {| mach := {| self := set_lock (Some Reader)
                          (set_reader_running true (__init__ None));
                world := idle;
                log := [(Reader, LockAcquire)] |};
     fg := Ret tt;
     rd := R_read |}.

(** A reader on [Wire] that is alone and will go round its loop: the flag
    is up, or about to be set by line 54, and the guard follows the reader. *)
Definition going_round (c : config Transport) : Prop :=
  fg c = Ret tt
  /\ stopped (rd c) = false
  /\ (rd c = R_start \/ _reader_running (self (mach c)) = true)
  /\ _auto_reader_lock (self (mach c)) = guard_of (rd c).

(** ** Disconnecting *)







From Stdlib Require Strings.Byte.

(** ** Vocabulary of the further properties *)

(** [p] makes the calls [cs], one after the other, whatever they return, and
    then returns [None]. *)
Fixpoint sends (cs : list call) (p : prog unit) : Prop :=
  match cs with
  | [] => p = Ret tt
  | c :: rest =>
      match p with
      | Vis c' k => c' = c /\ forall r, sends rest (k r)
      | _ => False
      end
  end.

Definition is_send (c : call) : bool :=
  match c with
  | SendCharacter _ | SendLine _ _ => true
  | _ => false
  end.

(** What a call of [send_character] or [send_line] does to the transport. *)
Definition send_outcome {W : Type} (cls : Class W) (c : call) (w : W)
  : outcome unit * W :=
  match c with
  | SendCharacter ch => send_character cls ch w
  | SendLine txt e => call_send_line cls txt e w
  | _ => (Ok tt, w)
  end.

(** The calls [cs] made on the transport one after the other, up to and
    including the first that raises: the outcome, the transport afterwards
    and the number of calls made. *)
Fixpoint until_first_raise {W : Type} (cls : Class W) (cs : list call) (w : W)
  : outcome unit * W * nat :=
  match cs with
  | [] => (Ok tt, w, 0)
  | c :: rest =>
      match send_outcome cls c w with
      | (Raised e, w') => (Raised e, w', 1)
      | (Ok _, w') =>
          let '(r, w'', n) := until_first_raise cls rest w' in (r, w'', S n)
      end
  end.

(** What a call puts on [Wire]. *)
Definition wire_bytes (c : call) : option string :=
  match c with
  | SendCharacter ch => Some ch
  | SendLine txt (Some e) => Some (txt ++ e)
  | _ => None
  end.

(** The only things the reader thread does that others can see: the two
    lock operations, [read_line], and a sleep of 0.1 or 0 seconds. *)
Definition reader_event_ok (e : event) : bool :=
  match e with
  | (Reader, LockAcquire) | (Reader, LockRelease) | (Reader, ReadLine) => true
  | (Reader, Sleep q) => Qeq_bool q (1 # 10) || Qeq_bool q 0
  | (Reader, _) => false
  | (Foreground, _) => true
  end.

(** [p] never writes [True] to [_auto_read_enabled]. *)
Fixpoint keeps_paused {A : Type} (p : prog A) : Prop :=
  match p with
  | Ret _ => True
  | Raise _ => True
  | Vis c k =>
      match c with
      | SetAutoReadEnabled true => False
      | _ => True
      end /\ forall r, keeps_paused (k r)
  end.

(** What [n] successive [read_line] calls on [Wire] return when the queue of
    incoming lines is [q], and the events of the reader going [n] times round
    its loop with these results. *)
Definition reads_results (n : nat) (q : list string) : list string :=
  firstn n q ++ repeat EmptyString (n - length q).

Definition iteration_events (x : string) : list event :=
  by_thread Reader [LockAcquire; ReadLine; LockRelease; Sleep (sleep_secs x)].

(** Modelled from the spec: a subclass whose [send_line] gives [ending] a
    default, "line endings are caller-specified per sendLine call (commonly
    carriage-return)"; otherwise as [Wire]. *)
Definition Wire_default_CR : Class Transport :=
  {| is_connected := abstract;
     disconnect := abstract;
     read_line := read_line Wire;
     read_all := abstract;
     send_line_default := Some CR;
     send_line := send_line Wire;
     send_character := send_character Wire;
     list_files := abstract;
     write_file := fun _ _ => abstract;
     read_file := fun _ => abstract |}.

(** The guard is with the caller and the reader is at line 56. *)
Definition held_by_caller : config Transport :=
  {| mach := {| self := set_lock (Some Foreground)
                          (set_reader_running true (__init__ None));
                world := {| written := []; inbound := ["OK"] |};
                log := [(Foreground, LockAcquire)] |};
     fg := run_file "main.py" EmptyString;
     rd := R_acquire |}.

(** Auto-read was switched off before the reader thread started. *)
Definition paused : config Transport :=
  {| mach := {| self := set_auto_read_enabled false (__init__ None);
                world := {| written := []; inbound := ["OK"] |};
                log := [] |};
     fg := run_file "main.py" EmptyString;
     rd := R_start |}.

(** ** The flash dialog (src/flash_dialog.py) *)

(** *** [_flash_job], lines 108-147: the output of the flashing script

    The script redraws its progress with backspaces.  The job reads its
    standard output byte by byte and keeps [self._flash_output] for the
    dialog to show; logging is left out. *)

(** [x[0] == 8] *)
Definition is_backspace (x : Byte.byte) : bool := Byte.eqb x Byte.x08.

(** [x[0] in b"\r\n\t "] *)
Definition is_space (x : Byte.byte) : bool :=
  existsb (Byte.eqb x) [Byte.x0d; Byte.x0a; Byte.x09; Byte.x20].

Inductive signal : Type :=
| flash_output_signal
| flash_finished_signal (code : Z).

(** [self._flash_output] and the locals [buf] and [delete] of the loop, with
    the signals emitted so far. *)
Record FlashJob : Type := mkFlashJob {
  _flash_output : list Byte.byte;
  buf : list Byte.byte;
  delete : nat;
  emitted : list signal
}.

(** Lines 127-133.  The slice [self._flash_output[:-delete]] keeps all but
    the last [delete] bytes, none when there are not that many. *)
Definition flush (j : FlashJob) : FlashJob :=
  {| _flash_output :=
       (if 0 <? delete j
        then firstn (length (_flash_output j) - delete j) (_flash_output j)
        else _flash_output j) ++ buf j;
     buf := [];
     delete := 0;
     emitted := emitted j ++ [flash_output_signal] |}.

(** One pass of the loop for a byte [x] that was read, lines 126-141. *)
Definition receive (x : Byte.byte) (j : FlashJob) : FlashJob :=
  let j1 :=
    if (is_backspace x && (delete j =? 0))
       || (negb (is_backspace x) && is_space x)
    then flush j else j in
  if is_backspace x
  then {| _flash_output := _flash_output j1;
          buf := buf j1;
          delete := delete j1 + 1;
          emitted := emitted j1 |}
  else {| _flash_output := _flash_output j1;
          buf := buf j1 ++ [x];
          delete := delete j1;
          emitted := emitted j1 |}.

(** The loop of lines 123-141 on the bytes the script writes before it
    closes its output: the empty read at the end flushes and leaves. *)
Fixpoint pipe_loop (stream : list Byte.byte) (j : FlashJob) : FlashJob :=
  match stream with
  | [] => flush j
  | x :: rest => pipe_loop rest (receive x j)
  end.

(** Lines 110-114. *)
Definition flash_params (python_path port firmware_file : string)
    (erase_flash debug_mode : bool) : list string :=
  [python_path; "flash.py"; port; firmware_file]
  ++ (if erase_flash then ["--erase"] else [])
  ++ (if debug_mode then ["--debug"] else []).

(** What [subprocess.Popen] of line 115 and the script it starts come to:
    [FileNotFoundError], the one exception line 116 catches; any other
    exception ([PermissionError] and other [OSError]), which is not caught;
    or a script that runs, writes [stdout] and exits with [code]. *)
Inductive popen_result : Type :=
| Popen_FileNotFoundError
| Popen_raises (e : exn)
| Popen_started (stdout : list Byte.byte) (code : Z).

(** [_flash_job]: the outcome of the method, with [self._flash_output] and
    the signals emitted, given what they were.  An exception that is not
    caught leaves the method at once.  Reading the pipe, closing it and
    waiting for the script are taken to succeed. *)
Definition _flash_job (popen : list string -> popen_result)
    (python_path port firmware_file : string) (erase_flash debug_mode : bool)
    (output : list Byte.byte) (signals : list signal)
  : outcome unit * (list Byte.byte * list signal) :=
  match popen (flash_params python_path port firmware_file erase_flash debug_mode) with
  | Popen_FileNotFoundError =>
      (Ok tt, (output, (signals ++ [flash_finished_signal (-1)])%list))
  | Popen_raises e => (Raised e, (output, signals))
  | Popen_started stream code =>
      let j := pipe_loop stream
                 {| _flash_output := output; buf := []; delete := 0;
                    emitted := signals |} in
      (Ok tt, (_flash_output j, (emitted j ++ [flash_finished_signal code])%list))
  end.

(** What a terminal shows after [stream], starting from [text]: a backspace
    takes the last byte away, any other byte is added. *)
Definition terminal (text stream : list Byte.byte) : list Byte.byte :=
  fold_left
    (fun (txt : list Byte.byte) (x : Byte.byte) =>
       if is_backspace x then removelast txt else (txt ++ [x])%list)
    stream text.

(** Streams in which no backspace comes after a word that itself came after
    a backspace, with no white space in between. *)
Inductive pace : Type := Clean | AfterBackspace | AfterBackspaceText.

Fixpoint calm (s : pace) (stream : list Byte.byte) : bool :=
  match stream with
  | [] => true
  | x :: rest =>
      if is_backspace x then
        match s with
        | AfterBackspaceText => false
        | _ => calm AfterBackspace rest
        end
      else if is_space x then calm Clean rest
      else calm (match s with
                 | Clean => Clean
                 | _ => AfterBackspaceText
                 end) rest
  end.

(** The text the job stands for: the output without the bytes still to be
    deleted, then the bytes not yet flushed. *)
Definition pending_text (j : FlashJob) : list Byte.byte :=
  firstn (length (_flash_output j) - delete j) (_flash_output j) ++ buf j.

Definition in_pace (s : pace) (j : FlashJob) : Prop :=
  match s with
  | Clean => delete j = 0
  | AfterBackspace => 0 < delete j /\ buf j = []
  | AfterBackspaceText => 0 < delete j
  end.

(** The loop without its last flush. *)
Definition receive_all (stream : list Byte.byte) (j : FlashJob) : FlashJob :=
  fold_left (fun (j' : FlashJob) (x : Byte.byte) => receive x j') stream j.

Definition plain (x : Byte.byte) : bool := negb (is_backspace x) && negb (is_space x).

(** *** [_pick_firmware], lines 72-82 *)

(** [s.split(sep)] for a separator of one character. *)
Fixpoint split_on (sep : ascii) (s : string) : list string :=
  match s with
  | EmptyString => [EmptyString]
  | String c rest =>
      if Ascii.eqb c sep then EmptyString :: split_on sep rest
      else match split_on sep rest with
           | [] => [String c EmptyString]
           | h :: t => String c h :: t
           end
  end.

(** [sep.join(l)] *)
Fixpoint join_with (sep : string) (l : list string) : string :=
  match l with
  | [] => EmptyString
  | x :: rest =>
      match rest with
      | [] => x
      | _ :: _ => x ++ sep ++ join_with sep rest
      end
  end.

(** Line 82: ["/".join(path.split("/")[0:-1])]. *)
Definition firmware_directory (path : string) : string :=
  join_with "/" (removelast (split_on "/"%char path)).

(** The text of [firmwarePathEdit] and [Settings.last_firmware_directory]. *)
Record FirmwareChoice : Type := mkFirmwareChoice {
  firmwarePathEdit : string;
  last_firmware_directory : string
}.

(** Lines 73-75: the directory the file dialog is opened in. *)
Definition firmware_dir (st : FirmwareChoice) : option string :=
  if truthy (last_firmware_directory st)
  then Some (last_firmware_directory st) else None.

(** [_pick_firmware] when the file dialog returns [path], the empty string
    when it was cancelled. *)
Definition _pick_firmware (path : string) (st : FirmwareChoice) : FirmwareChoice :=
  if truthy path
  then {| firmwarePathEdit := path;
          last_firmware_directory := firmware_directory path |}
  else st.

Definition no_slash (s : string) : bool :=
  forallb (fun c : ascii => negb (Ascii.eqb c "/"%char)) (list_ascii_of_string s).

(** * Properties *)

(** ** String building *)

Lemma format_run_file_open (file_name : string) :
  format run_file_open file_name
  = "with open(" ++ dquote ++ file_name ++ dquote ++ ") as f:".
Proof. reflexivity. Qed.

Lemma format_remove_file_stmt (file_name : string) :
  format remove_file_stmt file_name = os_remove file_name.
Proof. reflexivity. Qed.

Lemma truthy_eqb (s : string) : truthy s = negb (String.eqb s EmptyString).
Proof. destruct s; reflexivity. Qed.

Lemma app_assoc_cons {A : Type} (l : list A) (a : A) (r : list A) :
  ((l ++ [a]) ++ r = l ++ a :: r)%list.
Proof. rewrite <- app_assoc. reflexivity. Qed.

(** ** The paste session of [run_file] *)

Lemma run_file_on_wire (file_name globals_init : string) (m : machine Transport) :
  exec Wire Foreground (run_file file_name globals_init) m
  = Some (Ok tt,
          {| self := self m;
             world := {| written := written (world m)
                                    ++ paste_session file_name globals_init;
                         inbound := inbound (world m) |};
             log := log m
                    ++ by_thread Foreground (paste_calls file_name globals_init) |}).
Proof.
  unfold paste_session, paste_calls.
  destruct globals_init as [|a g]; cbn;
    rewrite ?app_assoc_cons; reflexivity.
Qed.

(** C2: for every [file_name] and [globals_init], [run_file] writes to the
    transport, in this order and nothing else, the start-paste byte 0x05, the
    line [globals_init] followed by a carriage return when it is not empty,
    the line [with open("<file_name>") as f:] followed by a carriage return,
    the line [    exec(f.read(), globals())] followed by a carriage return,
    and the end-paste byte 0x04; it reads nothing and changes no attribute.
    [run_file("main.py", "x=1")] on an idle transport leaves exactly these
    five writes. *)
Theorem C2_run_file_paste_session (file_name globals_init : string)
    (m : machine Transport) :
  exec Wire Foreground (run_file file_name globals_init) m
  = Some (Ok tt,
          {| self := self m;
             world :=
               {| written :=
                    written (world m)
                    ++ [CTRL_E]
                    ++ (if String.eqb globals_init EmptyString then []
                        else [globals_init ++ CR])
                    ++ [("with open(" ++ dquote ++ file_name ++ dquote
                         ++ ") as f:") ++ CR;
                        "    exec(f.read(), globals())" ++ CR;
                        CTRL_D];
                  inbound := inbound (world m) |};
             log := log m
                    ++ by_thread Foreground (paste_calls file_name globals_init) |})
  /\ option_map (fun r => written (world (snd r)))
       (exec Wire Foreground (run_file "main.py" "x=1") (fresh idle))
     = Some [CTRL_E;
             "x=1" ++ CR;
             ("with open(" ++ dquote ++ "main.py" ++ dquote ++ ") as f:") ++ CR;
             "    exec(f.read(), globals())" ++ CR;
             CTRL_D].
Proof.
  split.
  - apply run_file_on_wire.
  - reflexivity.
Qed.

(** ** [remove_file] and the signature of [send_line] *)

Lemma remove_file_required_ending {W : Type} (cls : Class W)
    (file_name : string) (m : machine W) :
  send_line_default cls = None ->
  exec cls Foreground (remove_file file_name) m
  = Some (Raised (TypeError_missing "send_line" "ending"),
          untouched m [SendLine (os_remove file_name) None]).
Proof.
  intros Hsig. unfold remove_file, invoke. cbn.
  unfold call_send_line. rewrite Hsig. reflexivity.
Qed.

(** With a default for [ending] the statement goes out, followed by that
    default. *)
Lemma remove_file_default_ending {W : Type} (cls : Class W)
    (file_name d : string) (m : machine W) :
  send_line_default cls = Some d ->
  exec cls Foreground (remove_file file_name) m
  = Some (fst (send_line cls (os_remove file_name) d (world m)),
          {| self := self m;
             world := snd (send_line cls (os_remove file_name) d (world m));
             log := log m ++ [(Foreground, SendLine (os_remove file_name) None)] |}).
Proof.
  intros Hsig. unfold remove_file, invoke.
  rewrite format_remove_file_stmt.
  generalize (os_remove file_name) as stmt; intros stmt. cbn.
  unfold call_send_line. rewrite Hsig.
  destruct (send_line cls stmt d (world m)) as [[[]|e] w]; reflexivity.
Qed.

(** C10: [remove_file] calls [send_line] with the statement text alone.
    Against every class whose [send_line] has the declared signature, with
    [ending] required, the call fails with the missing-argument [TypeError]
    whatever the file name: the one call made carries no line ending, and
    neither the attributes nor the transport change. *)
Theorem C10_remove_file_missing_ending {W : Type} (cls : Class W)
    (file_name : string) (m : machine W) :
  send_line_default cls = None ->
  exec cls Foreground (remove_file file_name) m
  = Some (Raised (TypeError_missing "send_line" "ending"),
          {| self := self m;
             world := world m;
             log := log m
                    ++ [(Foreground,
                         SendLine ("import os; os.remove(" ++ dquote
                                   ++ file_name ++ dquote ++ ")") None)] |}).
Proof.
  intros Hsig. apply (remove_file_required_ending cls file_name m Hsig).
Qed.

Lemma C10_remove_file_missing_ending_witness :
  send_line_default (Connection_class Transport) = None
  /\ exec (Connection_class Transport) Foreground (remove_file "boot.py") (fresh idle)
     = Some (Raised (TypeError_missing "send_line" "ending"),
             {| self := __init__ None;
                world := idle;
                log := [(Foreground,
                         SendLine ("import os; os.remove(" ++ dquote
                                   ++ "boot.py" ++ dquote ++ ")") None)] |}).
Proof.
  split.
  - reflexivity.
  - apply (C10_remove_file_missing_ending
             (Connection_class Transport) "boot.py" (fresh idle)).
    reflexivity.
Defined.

(** C9 (defect): on a transport whose [send_line] has the declared
    signature, where [run_file] gets its lines through, [remove_file] sends
    nothing at all: the call stops at the missing [ending]. *)
Theorem C9_remove_file_sends_nothing :
  exec Wire Foreground (remove_file "main.py") (fresh idle)
  = Some (Raised (TypeError_missing "send_line" "ending"),
          {| self := __init__ None;
             world := {| written := []; inbound := [] |};
             log := [(Foreground,
                      SendLine ("import os; os.remove(" ++ dquote
                                ++ "main.py" ++ dquote ++ ")") None)] |}).
Proof. reflexivity. Qed.

(** ** Operations on a connection that is not connected *)




(** ** One step of either thread *)

Lemma perform_quiet {W : Type} (cls : Class W) (t : tid) (c : call)
    (m : machine W) :
  quiet_call c = true ->
  exists (r : outcome (resp c)) (m' : machine W),
    perform cls t c m = Some (r, m')
    /\ _auto_reader_lock (self m') = _auto_reader_lock (self m)
    /\ (_reader_running (self m) = false -> _reader_running (self m') = false)
    /\ (exists evs, log m' = (log m ++ by_thread t evs)%list).
Proof.
  intros Hq.
  destruct c as [|[|]| | | | | | | | | | | | | |]; try discriminate Hq; cbn;
    unfold with_world, with_self, record; cbn;
    do 2 eexists; (split; [reflexivity|]); cbn;
    repeat split; auto;
    first [ exists []; cbn; rewrite app_nil_r; reflexivity
          | eexists [_]; reflexivity ].
Qed.

Lemma reader_reads_app (l1 l2 : list event) :
  reader_reads (l1 ++ l2) = reader_reads l1 + reader_reads l2.
Proof.
  unfold reader_reads. rewrite filter_app, length_app. reflexivity.
Qed.

Lemma reader_reads_foreground (cs : list call) :
  reader_reads (by_thread Foreground cs) = 0.
Proof.
  induction cs as [|c cs IH]; [reflexivity|]. exact IH.
Qed.

Lemma foreground_step_spec {W : Type} (cls : Class W) (c : config W) :
  guarded c ->
  guarded (foreground_step cls c)
  /\ rd (foreground_step cls c) = rd c
  /\ (_reader_running (self (mach c)) = false ->
      _reader_running (self (mach (foreground_step cls c))) = false)
  /\ reader_reads (log (mach (foreground_step cls c)))
     = reader_reads (log (mach c)).
Proof.
  intros [Hq Hl]. unfold foreground_step.
  destruct (fg c) as [a|e|c0 k] eqn:Hfg.
  - repeat split; auto. rewrite Hfg. exact I.
  - repeat split; auto. rewrite Hfg. exact I.
  - destruct Hq as [Hc Hk].
    destruct (perform_quiet cls Foreground c0 (mach c) Hc)
      as (r & m' & Hp & Hlock & Hrun & evs & Hlog).
    rewrite Hp.
    assert (Hreads : reader_reads (log m') = reader_reads (log (mach c))).
    { rewrite Hlog, reader_reads_app, reader_reads_foreground. lia. }
    destruct r as [r|e]; cbn; unfold guarded; cbn;
      rewrite Hlock; repeat split; auto.
Qed.

Lemma reader_step_guarded {W : Type} (cls : Class W) (c : config W) :
  guarded c -> guarded (_reader_thread_routine cls c).
Proof.
  destruct c as [[[term running auto lock] w l] p pc].
  unfold guarded; cbn. intros [Hq Hl]. subst lock.
  destruct pc; cbn; unfold reader_do; cbn; auto.
  - destruct running; cbn; auto.
  - destruct auto; cbn; auto.
  - destruct (read_line cls w) as [[x|e] w']; cbn; auto.
Qed.

Lemma step_guarded {W : Type} (cls : Class W) (c : config W) (t : tid) :
  guarded c -> guarded (step cls c t).
Proof.
  intros H. destruct t; cbn.
  - apply foreground_step_spec, H.
  - apply reader_step_guarded, H.
Qed.

Lemma run_guarded {W : Type} (cls : Class W) (sch : list tid) (c : config W) :
  guarded c -> guarded (run cls sch c).
Proof.
  revert c. induction sch as [|t sch IH]; intros c H; cbn.
  - exact H.
  - apply IH, step_guarded, H.
Qed.

Lemma run_file_quiet (file_name globals_init : string) :
  quiet (run_file file_name globals_init).
Proof.
  destruct globals_init; cbn; repeat split.
Qed.

(** ** The guard and the paste session *)

(** C1, as the claim has it, fails: the reader acquires the guard, the caller
    sends the start-paste byte, and the reader's [read_line] comes before the
    end-paste byte. *)
Lemma C1_counterexample :
  ~ session_exclusive Wire {| written := []; inbound := ["OK"] |}
      (run_file "main.py" "x=1").
Proof.
  intros H.
  specialize (H [Reader; Reader; Reader; Reader; Foreground; Reader;
                 Foreground; Foreground; Foreground; Foreground]).
  vm_compute in H. discriminate H.
Qed.

(** C1 (amended): [run_file] does not take the guard.  In every interleaving
    of [run_file] with the reader thread, on every class, the guard is never
    held by the caller; it is held by the reader exactly while the reader is
    between its [acquire] and its [release], that is around its single
    [read_line]. *)
Theorem C1_guard_held_by_reader_only {W : Type} (cls : Class W) (w : W)
    (file_name globals_init : string) (sch : list tid) :
  let c := run cls sch (start w (run_file file_name globals_init)) in
  _auto_reader_lock (self (mach c)) <> Some Foreground
  /\ _auto_reader_lock (self (mach c))
     = (if holds_guard (rd c) then Some Reader else None).
Proof.
  cbn zeta.
  assert (Hg : guarded (run cls sch (start w (run_file file_name globals_init)))).
  { apply run_guarded. split.
    - apply run_file_quiet.
    - reflexivity. }
  destruct Hg as [_ Hl]. unfold guard_of in Hl. split.
  - rewrite Hl. destruct (holds_guard _); discriminate.
  - exact Hl.
Qed.

(** ** One iteration of the reader *)

(** C5: an iteration entered with [_reader_running] true and the guard free
    does, in this order: [acquire]; one [read_line], whose result is dropped,
    if and only if [_auto_read_enabled] is true; [release]; then
    [time.sleep(0.1)] when no line was obtained (the read gave the empty
    string or was skipped) and [time.sleep(0)] when a non-empty line was
    read.  It ends back at the loop test with the attributes as they were. *)
Theorem C5_reader_iteration {W : Type} (cls : Class W) (c : config W) :
  rd c = R_test ->
  _reader_running (self (mach c)) = true ->
  _auto_reader_lock (self (mach c)) = None ->
  (_auto_read_enabled (self (mach c)) = false ->
   run cls [Reader; Reader; Reader; Reader; Reader] c
   = {| mach := {| self := self (mach c);
                   world := world (mach c);
                   log := log (mach c)
                          ++ [(Reader, LockAcquire);
                              (Reader, LockRelease);
                              (Reader, Sleep (1 # 10)%Q)] |};
        fg := fg c;
        rd := R_test |})
  /\ (_auto_read_enabled (self (mach c)) = true ->
      forall (x : string) (w' : W),
        read_line cls (world (mach c)) = (Ok x, w') ->
        run cls [Reader; Reader; Reader; Reader; Reader; Reader] c
        = {| mach := {| self := self (mach c);
                        world := w';
                        log := log (mach c)
                               ++ [(Reader, LockAcquire);
                                   (Reader, ReadLine);
                                   (Reader, LockRelease);
                                   (Reader,
                                    Sleep (if String.eqb x EmptyString
                                           then (1 # 10)%Q else 0%Q))] |};
             fg := fg c;
             rd := R_test |}).
Proof.
  destruct c as [[[term running auto lock] w l] p pc]. cbn.
  intros Hpc Hrun Hlock. subst pc running lock. split.
  - intros Hauto. subst auto. cbn. unfold reader_do; cbn.
    unfold with_self, record; cbn. rewrite <- !app_assoc. reflexivity.
  - intros Hauto x w' Hread. subst auto. cbn. unfold reader_do; cbn.
    rewrite Hread. cbn.
    unfold with_self, record, sleep_secs; cbn. rewrite <- !app_assoc.
    reflexivity.
Qed.

Lemma C5_reader_iteration_witness :
  rd looping = R_test
  /\ _reader_running (self (mach looping)) = true
  /\ _auto_reader_lock (self (mach looping)) = None
  /\ run Wire [Reader; Reader; Reader; Reader; Reader; Reader] looping
     = {| mach := {| self := self (mach looping);
                     world := idle;
                     log := [(Reader, LockAcquire); (Reader, ReadLine);
                             (Reader, LockRelease); (Reader, Sleep 0%Q)] |};
          fg := Ret tt;
          rd := R_test |}.
Proof.
  split; [reflexivity|]. split; [reflexivity|]. split; [reflexivity|].
  exact (proj2 (C5_reader_iteration Wire looping eq_refl eq_refl eq_refl)
           eq_refl "OK" idle eq_refl).
Defined.

(** ** Stopping the reader *)

Lemma reader_step_winding_down {W : Type} (cls : Class W) (c : config W) :
  winding_down c ->
  winding_down (_reader_thread_routine cls c)
  /\ steps_left (rd (_reader_thread_routine cls c)) <= pred (steps_left (rd c))
  /\ reader_reads (log (mach (_reader_thread_routine cls c)))
     + reads_left (rd (_reader_thread_routine cls c))
     <= reader_reads (log (mach c)) + reads_left (rd c).
Proof.
  destruct c as [[[term running auto lock] w l] p pc].
  unfold winding_down, guarded; cbn. intros [[Hq Hl] [Hrun Hpc]].
  subst lock running.
  destruct pc; cbn; unfold reader_do; cbn; try contradiction;
    unfold record; cbn;
    try (destruct auto; cbn);
    try (destruct (read_line cls w) as [[x|e] w']; cbn);
    unfold reader_reads; rewrite ?filter_app, ?length_app; cbn;
    repeat split; auto; try discriminate; try lia.
Qed.

Lemma step_winding_down {W : Type} (cls : Class W) (c : config W) (t : tid) :
  winding_down c ->
  winding_down (step cls c t)
  /\ steps_left (rd (step cls c t))
     <= steps_left (rd c) - (if tid_eqb Reader t then 1 else 0)
  /\ reader_reads (log (mach (step cls c t))) + reads_left (rd (step cls c t))
     <= reader_reads (log (mach c)) + reads_left (rd c).
Proof.
  intros H. destruct t; cbn.
  - destruct H as [Hg [Hrun Hpc]].
    destruct (foreground_step_spec cls Hg) as (Hg' & Hrd & Hrun' & Hreads).
    split; [split; [exact Hg'|split; [auto|rewrite Hrd; exact Hpc]]|].
    rewrite Hrd, Hreads. split; lia.
  - destruct (reader_step_winding_down cls H) as (H' & Hs & Hr).
    repeat split; try apply H'; lia.
Qed.

Lemma run_winding_down {W : Type} (cls : Class W) (sch : list tid) (c : config W) :
  winding_down c ->
  winding_down (run cls sch c)
  /\ steps_left (rd (run cls sch c)) <= steps_left (rd c) - turns Reader sch
  /\ reader_reads (log (mach (run cls sch c))) + reads_left (rd (run cls sch c))
     <= reader_reads (log (mach c)) + reads_left (rd c).
Proof.
  revert c. induction sch as [|t sch IH]; intros c H.
  - cbn. repeat split; try apply H; lia.
  - cbn [run fold_left].
    destruct (step_winding_down cls t H) as (H1 & Hs1 & Hr1).
    destruct (IH _ H1) as (H2 & Hs2 & Hr2). fold (run cls sch (step cls c t)).
    split; [exact H2|]. split; [|lia].
    unfold turns in *. cbn [filter].
    destruct (tid_eqb Reader t); cbn [length] in *; lia.
Qed.

Lemma steps_left_in_loop (pc : reader_pc) : pc <> R_start -> steps_left pc <= 6.
Proof. destruct pc; cbn; intros H; try lia. contradiction. Qed.

Lemma steps_left_stopped (pc : reader_pc) : steps_left pc = 0 -> stopped pc = true.
Proof. destruct pc; cbn; intros H; try discriminate H; reflexivity. Qed.

Lemma reads_left_le_1 (pc : reader_pc) : reads_left pc <= 1.
Proof. destruct pc; cbn; lia. Qed.

Lemma reader_step_going_round (c : config Transport) :
  going_round c -> going_round (_reader_thread_routine Wire c).
Proof.
  destruct c as [[[term running auto lock] w l] p pc].
  unfold going_round; cbn. intros (Hfg & Hstop & Hrun & Hlock). subst p lock.
  destruct pc; try discriminate Hstop; cbn; unfold reader_do; cbn;
    try (destruct Hrun as [Hrun|Hrun]; [discriminate Hrun|]; subst running; cbn);
    try (destruct auto; cbn);
    try (destruct (inbound w) as [|x rest]; cbn);
    repeat split; auto.
Qed.

Lemma run_going_round (n : nat) (c : config Transport) :
  going_round c -> going_round (run Wire (repeat Reader n) c).
Proof.
  revert c. induction n as [|n IH]; intros c H; [exact H|].
  cbn [repeat run fold_left step]. fold (run Wire (repeat Reader n)).
  apply IH, reader_step_going_round, H.
Qed.

(** C6, as the claim has it, fails.  A flag cleared before the reader thread
    has run line 54 is set again by that line: the reader reads more than
    once afterwards and never leaves its loop, however many steps it takes.
    And [disconnect] of the class neither clears the flag nor waits: it
    raises, the flag still up. *)
Lemma C6_counterexample :
  _reader_running (self (mach cleared_too_early)) = false
  /\ ~ one_more_read_at_most Wire cleared_too_early
  /\ (forall n : nat, stopped (rd (run Wire (repeat Reader n) cleared_too_early)) = false)
  /\ exec (Connection_class Transport) Foreground (invoke Disconnect) (mach looping)
     = Some (Raised NotImplementedError, untouched (mach looping) [Disconnect])
  /\ _reader_running (self (untouched (mach looping) [Disconnect])) = true.
Proof.
  split; [reflexivity|]. split.
  - intros H. specialize (H (repeat Reader 12)). vm_compute in H. lia.
  - split; [|split; reflexivity].
    intros n. apply (run_going_round n).
    repeat split. left. reflexivity.
Qed.

(** C6 (amended): once [_reader_running] is false while the reader is inside
    its loop (past line 54), next to a caller that neither uses the lock nor
    sets the flag again, then in every interleaving the reader makes no
    [read_line] beyond the one of the iteration it is in, the flag stays
    false, and after six steps of its own at the most the reader has left
    the routine. *)
Theorem C6_reader_stops_once_cleared {W : Type} (cls : Class W) (c : config W)
    (sch : list tid) :
  quiet (fg c) ->
  _reader_running (self (mach c)) = false ->
  rd c <> R_start ->
  _auto_reader_lock (self (mach c))
  = (if holds_guard (rd c) then Some Reader else None) ->
  reader_reads (log (mach (run cls sch c)))
  <= reader_reads (log (mach c)) + reads_left (rd c)
  /\ reads_left (rd c) <= 1
  /\ _reader_running (self (mach (run cls sch c))) = false
  /\ (6 <= turns Reader sch -> stopped (rd (run cls sch c)) = true).
Proof.
  intros Hq Hrun Hpc Hl.
  assert (Hw : winding_down c) by (repeat split; assumption).
  destruct (run_winding_down cls sch Hw) as ((_ & Hrun' & _) & Hsteps & Hreads).
  pose proof (steps_left_in_loop Hpc) as Hsix.
  split; [lia|]. split; [apply reads_left_le_1|]. split; [exact Hrun'|].
  intros Hturns. apply steps_left_stopped. lia.
Qed.

Lemma C6_reader_stops_once_cleared_witness :
  quiet (fg stopping)
  /\ _reader_running (self (mach stopping)) = false
  /\ rd stopping <> R_start
  /\ _auto_reader_lock (self (mach stopping)) = None
  /\ reader_reads (log (mach (run Wire (repeat Reader 6) stopping))) <= 0 + 1
  /\ stopped (rd (run Wire (repeat Reader 6) stopping)) = true.
Proof.
  split; [exact I|]. split; [reflexivity|]. split; [discriminate|].
  split; [reflexivity|].
  pose proof (@C6_reader_stops_once_cleared Transport Wire stopping
                (repeat Reader 6) I eq_refl
                (fun H : rd stopping = R_start =>
                   eq_ind R_acquire
                     (fun pc => match pc with R_start => False | _ => True end)
                     I R_start H)
                eq_refl) as (Hreads & _ & _ & Hstop).
  split; [exact Hreads|]. apply Hstop. cbn. lia.
Defined.

(** ** A failing read *)

Lemma reader_dead_stays {W : Type} (cls : Class W) (c : config W) (n : nat) :
  stopped (rd c) = true -> run cls (repeat Reader n) c = c.
Proof.
  intros H. induction n as [|n IH]; [reflexivity|].
  cbn [repeat run fold_left step]. fold (run cls (repeat Reader n)).
  assert (Hc : _reader_thread_routine cls c = c).
  { unfold _reader_thread_routine. destruct (rd c); try discriminate H; reflexivity. }
  rewrite Hc. exact IH.
Qed.

(** C7, as the claim has it, fails: after a [read_line] that raised, the flag
    is still up and the guard is still held. *)
Lemma C7_counterexample :
  let c := run Faulty (repeat Reader 5) (start idle (Ret tt)) in
  rd c = R_died (UserError "OSError")
  /\ _reader_running (self (mach c)) = true
  /\ _auto_reader_lock (self (mach c)) = Some Reader.
Proof. cbn zeta. split; [reflexivity|]. split; reflexivity. Qed.

(** C7 (amended): when [read_line] raises in an iteration, the exception
    leaves the routine: the reader thread stops there and makes no further
    step, so there is no retry and no further read.  Nothing is cleaned up on
    the way: the attributes are as they were before the call, [_reader_running]
    still true and the guard still held, locked by the reader. *)
Theorem C7_read_failure_ends_reader {W : Type} (cls : Class W) (c : config W)
    (e : exn) (w' : W) :
  rd c = R_read ->
  _reader_running (self (mach c)) = true ->
  _auto_reader_lock (self (mach c)) = Some Reader ->
  read_line cls (world (mach c)) = (Raised e, w') ->
  rd (step cls c Reader) = R_died e
  /\ _reader_running (self (mach (step cls c Reader))) = true
  /\ _auto_reader_lock (self (mach (step cls c Reader))) = Some Reader
  /\ log (mach (step cls c Reader)) = (log (mach c) ++ [(Reader, ReadLine)])%list
  /\ forall n : nat, run cls (repeat Reader n) (step cls c Reader) = step cls c Reader.
Proof.
  destruct c as [[s w l] p pc]. cbn. intros Hpc Hrun Hlock Hread. subst pc.
  assert (Hstep : _reader_thread_routine cls
                    {| mach := {| self := s; world := w; log := l |};
                       fg := p; rd := R_read |}
                  = {| mach := {| self := s; world := w';
                                  log := (l ++ [(Reader, ReadLine)])%list |};
                       fg := p; rd := R_died e |}).
  { cbn. unfold reader_do. cbn. rewrite Hread. reflexivity. }
  rewrite Hstep. cbn. repeat split; auto.
  intros n. apply reader_dead_stays. reflexivity.
Qed.

Lemma C7_read_failure_ends_reader_witness :
  rd reading = R_read
  /\ _reader_running (self (mach reading)) = true
  /\ _auto_reader_lock (self (mach reading)) = Some Reader
  /\ read_line Faulty (world (mach reading)) = (Raised (UserError "OSError"), idle)
  /\ rd (step Faulty reading Reader) = R_died (UserError "OSError")
  /\ _auto_reader_lock (self (mach (step Faulty reading Reader))) = Some Reader.
Proof.
  split; [reflexivity|]. split; [reflexivity|]. split; [reflexivity|].
  split; [reflexivity|].
  pose proof (@C7_read_failure_ends_reader Transport Faulty reading
                (UserError "OSError") idle eq_refl eq_refl eq_refl eq_refl)
    as (Hpc & _ & Hlock & _).
  split; [exact Hpc | exact Hlock].
Defined.

(** ** Disconnecting twice *)





(** * Further properties of [Connection] *)

(** ** Methods that only call the transport *)

Lemma exec_sends {W : Type} (cls : Class W) (t : tid) (cs : list call) :
  forallb is_send cs = true ->
  forall (p : prog unit) (m : machine W),
    sends cs p ->
    exec cls t p m
    = Some (fst (fst (until_first_raise cls cs (world m))),
            {| self := self m;
               world := snd (fst (until_first_raise cls cs (world m)));
               log := (log m
                       ++ by_thread t
                            (firstn (snd (until_first_raise cls cs (world m))) cs))%list |}).
Proof.
  induction cs as [|c rest IH]; intros Hcs p m Hp.
  - cbn in Hp. subst p. cbn. rewrite app_nil_r. destruct m; reflexivity.
  - cbn in Hcs. apply andb_true_iff in Hcs. destruct Hcs as [Hc Hrest].
    destruct p as [a|e|c' k]; cbn in Hp; try contradiction.
    destruct Hp as [Heq Hk]. subst c'.
    destruct c; try discriminate Hc; cbn [exec perform with_world until_first_raise
                                          send_outcome fst snd record observable].
    + destruct (call_send_line cls line_text ending (world m)) as [[[]|e] w'];
        cbn [fst snd].
      * rewrite (IH Hrest (k tt) _ (Hk tt)). cbn [self world log].
        destruct (until_first_raise cls rest w') as [[r w''] n]. cbn.
        rewrite <- app_assoc. reflexivity.
      * reflexivity.
    + destruct (send_character cls char (world m)) as [[[]|e] w']; cbn [fst snd].
      * rewrite (IH Hrest (k tt) _ (Hk tt)). cbn [self world log].
        destruct (until_first_raise cls rest w') as [[r w''] n]. cbn.
        rewrite <- app_assoc. reflexivity.
      * reflexivity.
Qed.

Lemma until_first_raise_all_ok {W : Type} (cls : Class W) (cs : list call) :
  forall (w : W) (r : outcome unit) (w' : W) (n : nat),
    until_first_raise cls cs w = (r, w', n) ->
    n <= length cs
    /\ (cs <> [] -> 1 <= n)
    /\ (r = Ok tt -> n = length cs)
    /\ (n < length cs -> exists e, r = Raised e).
Proof.
  induction cs as [|c rest IH]; intros w r w' n H.
  - cbn in H. injection H as <- <- <-. cbn.
    repeat split; auto; try lia. intros H; contradiction.
  - cbn in H. destruct (send_outcome cls c w) as [[[]|e] w1].
    + destruct (until_first_raise cls rest w1) as [[r1 w2] n1] eqn:Hrest.
      injection H as <- <- <-.
      destruct (IH _ _ _ _ Hrest) as (Hle & _ & Hok & Hlt).
      cbn. repeat split; auto; try lia. intros H. apply Hlt. lia.
    + injection H as <- <- <-. cbn. repeat split; auto; try lia.
      * intros H. discriminate H.
      * intros _. exists e. reflexivity.
Qed.

(** The calls after the first that raises do not matter. *)
Lemma until_first_raise_stops {W : Type} (cls : Class W) (pre : list call) :
  forall (c : call) (post : list call) (w w1 w2 : W) (e : exn),
    until_first_raise cls pre w = (Ok tt, w1, length pre) ->
    send_outcome cls c w1 = (Raised e, w2) ->
    until_first_raise cls (pre ++ c :: post) w = (Raised e, w2, S (length pre)).
Proof.
  induction pre as [|c0 pre IH]; intros c post w w1 w2 e Hpre Hc.
  - cbn in Hpre. injection Hpre as <-. cbn. rewrite Hc. reflexivity.
  - cbn in Hpre. cbn [app until_first_raise].
    destruct (send_outcome cls c0 w) as [[[]|e0] w0].
    + destruct (until_first_raise cls pre w0) as [[r1 w1'] n1] eqn:Hrest.
      injection Hpre as -> -> ->.
      rewrite (IH c post w0 w1 w2 e Hrest Hc). reflexivity.
    + discriminate Hpre.
Qed.

Lemma run_file_sends (file_name globals_init : string) :
  sends (paste_calls file_name globals_init) (run_file file_name globals_init).
Proof.
  unfold paste_calls. destruct globals_init as [|a g]; cbn;
    repeat (split; [reflexivity|]; intros []); reflexivity.
Qed.

Lemma paste_calls_sends (file_name globals_init : string) :
  forallb is_send (paste_calls file_name globals_init) = true.
Proof.
  unfold paste_calls. destruct (String.eqb globals_init EmptyString); reflexivity.
Qed.

(** X1: on every class, [run_file] makes the calls of its paste session in
    order and stops at the first that raises.  Its outcome, the transport it
    leaves and the calls it has made are those of making the calls one after
    the other up to and including the first that raises: when a call raises
    after the calls before it succeeded, [run_file] raises that exception,
    the transport is as that call left it, and none of the calls after it is
    made.  So the end-paste byte goes out only if every call before it got
    through.  [run_file] never blocks and changes no attribute. *)
Theorem X1_run_file_stops_at_first_failure {W : Type} (cls : Class W)
    (file_name globals_init : string) (m : machine W) :
  exec cls Foreground (run_file file_name globals_init) m
  = Some (fst (fst (until_first_raise cls (paste_calls file_name globals_init)
                      (world m))),
          {| self := self m;
             world := snd (fst (until_first_raise cls
                                  (paste_calls file_name globals_init) (world m)));
             log := (log m
                     ++ by_thread Foreground
                          (firstn
                             (snd (until_first_raise cls
                                     (paste_calls file_name globals_init)
                                     (world m)))
                             (paste_calls file_name globals_init)))%list |})
  /\ (forall (pre : list call) (c : call) (post : list call) (w1 w2 : W)
        (e : exn),
        paste_calls file_name globals_init = (pre ++ c :: post)%list ->
        until_first_raise cls pre (world m) = (Ok tt, w1, length pre) ->
        send_outcome cls c w1 = (Raised e, w2) ->
        exec cls Foreground (run_file file_name globals_init) m
        = Some (Raised e,
                {| self := self m;
                   world := w2;
                   log := (log m ++ by_thread Foreground (pre ++ [c]))%list |}))
  /\ 1 <= snd (until_first_raise cls (paste_calls file_name globals_init) (world m))
     <= length (paste_calls file_name globals_init)
  /\ (fst (fst (until_first_raise cls (paste_calls file_name globals_init)
                  (world m))) = Ok tt ->
      snd (until_first_raise cls (paste_calls file_name globals_init) (world m))
      = length (paste_calls file_name globals_init))
  /\ (snd (until_first_raise cls (paste_calls file_name globals_init) (world m))
      < length (paste_calls file_name globals_init) ->
      exists e,
        fst (fst (until_first_raise cls (paste_calls file_name globals_init)
                    (world m))) = Raised e).
Proof.
  pose proof (@exec_sends W cls Foreground (paste_calls file_name globals_init)
                (paste_calls_sends file_name globals_init)
                (run_file file_name globals_init) m
                (run_file_sends file_name globals_init)) as Hexec.
  split; [exact Hexec|]. split.
  - intros pre c post w1 w2 e Hsplit Hpre Hc.
    rewrite Hexec, Hsplit.
    rewrite (@until_first_raise_stops W cls pre c post (world m) w1 w2 e Hpre Hc).
    cbn [fst snd].
    replace (S (length pre)) with (length (pre ++ [c]))
      by (rewrite length_app; cbn; lia).
    replace (pre ++ c :: post)%list with ((pre ++ [c]) ++ post)%list
      by (rewrite <- app_assoc; reflexivity).
    rewrite firstn_app, firstn_all, Nat.sub_diag. cbn.
    rewrite app_nil_r. reflexivity.
  - destruct (until_first_raise cls (paste_calls file_name globals_init) (world m))
      as [[r w'] n] eqn:Hu.
    destruct (@until_first_raise_all_ok W cls _ _ _ _ _ Hu) as (Hle & Hpos & Hok & Hlt).
    cbn [fst snd]. repeat split; auto.
    apply Hpos. unfold paste_calls. discriminate.
Qed.

(** ** [run_file] next to the reader, on the wire *)

Lemma reader_reads_snoc (l : list event) (e : event) :
  reader_reads (l ++ [e]) = reader_reads l + (if is_reader_read e then 1 else 0).
Proof.
  rewrite reader_reads_app. unfold reader_reads at 2. cbn.
  destruct (is_reader_read e); reflexivity.
Qed.

Lemma reader_step_wire (c : config Transport) :
  fg (_reader_thread_routine Wire c) = fg c
  /\ written (world (mach (_reader_thread_routine Wire c)))
     = written (world (mach c))
  /\ exists k : nat,
       reader_reads (log (mach (_reader_thread_routine Wire c)))
       = reader_reads (log (mach c)) + k
       /\ inbound (world (mach (_reader_thread_routine Wire c)))
          = skipn k (inbound (world (mach c))).
Proof.
  destruct c as [[[term running auto lock] [wr inb] l] p pc].
  destruct pc; cbn; unfold reader_do; cbn; unfold record; cbn;
    try (destruct lock; cbn);
    try (destruct running; cbn);
    try (destruct auto; cbn);
    try (destruct inb as [|x rest]; cbn);
    (split; [reflexivity|]); (split; [reflexivity|]);
    unfold reader_reads; rewrite ?filter_app, ?length_app; cbn;
    first [ exists 0; split; [lia|reflexivity]
          | exists 1; split; [lia|reflexivity] ].
Qed.

Lemma foreground_step_wire (c : config Transport) (c0 : call) (rest : list call)
    (b : string) :
  sends (c0 :: rest) (fg c) ->
  wire_bytes c0 = Some b ->
  sends rest (fg (foreground_step Wire c))
  /\ rd (foreground_step Wire c) = rd c
  /\ written (world (mach (foreground_step Wire c)))
     = (written (world (mach c)) ++ [b])%list
  /\ inbound (world (mach (foreground_step Wire c))) = inbound (world (mach c))
  /\ reader_reads (log (mach (foreground_step Wire c)))
     = reader_reads (log (mach c)).
Proof.
  destruct c as [[s [wr inb] l] p pc]. cbn.
  intros Hp Hb. destruct p as [a|e|c' k]; try contradiction.
  destruct Hp as [Heq Hk]. subst c'.
  destruct c0 as [| | | | | | | | | | |txt [e|]|ch| | |]; try discriminate Hb;
    cbn in Hb; injection Hb as Hb; subst b;
    unfold foreground_step; cbn; unfold record; cbn;
    unfold reader_reads; rewrite ?filter_app, ?length_app; cbn;
    repeat split; auto.
Qed.

Lemma run_wire_sends (sch : list tid) :
  forall (cs : list call) (bs : list string) (c : config Transport),
    sends cs (fg c) ->
    map wire_bytes cs = map Some bs ->
    written (world (mach (run Wire sch c)))
    = (written (world (mach c)) ++ firstn (turns Foreground sch) bs)%list
    /\ exists k : nat,
         reader_reads (log (mach (run Wire sch c)))
         = reader_reads (log (mach c)) + k
         /\ inbound (world (mach (run Wire sch c)))
            = skipn k (inbound (world (mach c))).
Proof.
  induction sch as [|t sch IH]; intros cs bs c Hp Hbs.
  - cbn. rewrite app_nil_r. split; [reflexivity|].
    exists 0. split; [lia|reflexivity].
  - cbn [run fold_left]. fold (run Wire sch (step Wire c t)).
    destruct t; cbn [step turns filter tid_eqb length].
    + destruct cs as [|c0 rest].
      * cbn in Hp.
        assert (Hstep : foreground_step Wire c = c).
        { unfold foreground_step. rewrite Hp. reflexivity. }
        rewrite Hstep. destruct bs; [|discriminate Hbs].
        destruct (IH [] [] c Hp eq_refl) as (Hw & k & Hr & Hi).
        rewrite Hw, !firstn_nil. split; [reflexivity|].
        exists k. split; assumption.
      * destruct bs as [|b bs]; [discriminate Hbs|].
        cbn in Hbs. injection Hbs as Hb Hbs.
        destruct (foreground_step_wire c c0 rest Hp Hb)
          as (Hp' & _ & Hw' & Hi' & Hr').
        destruct (IH rest bs _ Hp' Hbs) as (Hw & k & Hr & Hi).
        rewrite Hw, Hw', <- app_assoc. cbn. split; [reflexivity|].
        exists k. rewrite Hr, Hr', Hi, Hi'. split; reflexivity.
    + destruct (reader_step_wire c) as (Hfg & Hw' & k1 & Hr1 & Hi1).
      assert (Hp' : sends cs (fg (_reader_thread_routine Wire c)))
        by (rewrite Hfg; exact Hp).
      destruct (IH cs bs _ Hp' Hbs) as (Hw & k & Hr & Hi).
      rewrite Hw, Hw'. split; [reflexivity|].
      exists (k1 + k). rewrite Hr, Hr1, Hi, Hi1, skipn_skipn.
      split; [lia|]. f_equal. lia.
Qed.

Lemma paste_calls_bytes (file_name globals_init : string) :
  map wire_bytes (paste_calls file_name globals_init)
  = map Some (paste_session file_name globals_init).
Proof.
  unfold paste_calls, paste_session.
  destruct (String.eqb globals_init EmptyString); reflexivity.
Qed.

(** X2: the reader thread does not disturb what [run_file] writes.  In every
    interleaving of [run_file] with the reader on the wire, the bytes written
    so far are the first calls of the paste session, in order, one for each
    step the caller has taken, and nothing else: the reader writes nothing. *)
Theorem X2_run_file_writes_in_every_interleaving (w : Transport)
    (file_name globals_init : string) (sch : list tid) :
  written (world (mach (run Wire sch (start w (run_file file_name globals_init)))))
  = (written w
     ++ firstn (turns Foreground sch) (paste_session file_name globals_init))%list.
Proof.
  apply (run_wire_sends sch (paste_calls file_name globals_init)
           (paste_session file_name globals_init)
           (start w (run_file file_name globals_init))
           (run_file_sends file_name globals_init)
           (paste_calls_bytes file_name globals_init)).
Qed.

(** X3: incoming lines are taken by the reader alone, one for each of its
    [read_line] calls and in order: in every interleaving with [run_file],
    what is left of the queue is the queue without its first [n] lines, [n]
    being the number of reads the reader has made.  [run_file] reads
    nothing. *)
Theorem X3_reader_takes_lines_in_order (w : Transport)
    (file_name globals_init : string) (sch : list tid) :
  inbound (world (mach (run Wire sch (start w (run_file file_name globals_init)))))
  = skipn
      (reader_reads
         (log (mach (run Wire sch (start w (run_file file_name globals_init))))))
      (inbound w).
Proof.
  destruct (run_wire_sends sch (paste_calls file_name globals_init)
              (paste_session file_name globals_init)
              (start w (run_file file_name globals_init))
              (run_file_sends file_name globals_init)
              (paste_calls_bytes file_name globals_init))
    as (_ & k & Hr & Hi).
  rewrite Hr, Hi. reflexivity.
Qed.

(** ** What the guard and the pause flag do for a caller *)

Lemma perform_foreground {W : Type} (cls : Class W) (c : call) (m : machine W) :
  match perform cls Foreground c m with
  | None => True
  | Some (_, m') =>
      reader_reads (log m') = reader_reads (log m)
      /\ forallb reader_event_ok (log m')
         = forallb reader_event_ok (log m)
      /\ (match c with SetAutoReadEnabled true => False | _ => True end ->
          _auto_read_enabled (self m) = false ->
          _auto_read_enabled (self m') = false)
  end.
Proof.
  destruct c; cbn;
    try (destruct (_auto_reader_lock (self m)); cbn);
    unfold record; cbn;
    unfold reader_reads; rewrite ?filter_app, ?length_app, ?forallb_app; cbn;
    rewrite ?andb_true_r;
    repeat split; auto; try lia; try contradiction;
    match goal with
    | b : bool |- _ => destruct b; [contradiction|reflexivity]
    end.
Qed.

Lemma foreground_step_quiet {W : Type} (cls : Class W) (c : config W) :
  quiet (fg c) ->
  quiet (fg (foreground_step cls c))
  /\ rd (foreground_step cls c) = rd c
  /\ _auto_reader_lock (self (mach (foreground_step cls c)))
     = _auto_reader_lock (self (mach c))
  /\ reader_reads (log (mach (foreground_step cls c)))
     = reader_reads (log (mach c)).
Proof.
  intros Hq. unfold foreground_step.
  destruct (fg c) as [a|e|c0 k] eqn:Hfg.
  - rewrite Hfg. repeat split.
  - rewrite Hfg. repeat split.
  - destruct Hq as [Hc Hk].
    destruct (perform_quiet cls Foreground c0 (mach c) Hc)
      as (r & m' & Hp & Hlock & _ & evs & Hlog).
    rewrite Hp.
    assert (Hreads : reader_reads (log m') = reader_reads (log (mach c))).
    { rewrite Hlog, reader_reads_app, reader_reads_foreground. lia. }
    destruct r as [r|e]; cbn; repeat split; auto.
Qed.

Lemma reader_step_locked_out {W : Type} (cls : Class W) (c : config W) :
  _auto_reader_lock (self (mach c)) = Some Foreground ->
  holds_guard (rd c) = false ->
  fg (_reader_thread_routine cls c) = fg c
  /\ _auto_reader_lock (self (mach (_reader_thread_routine cls c)))
     = Some Foreground
  /\ holds_guard (rd (_reader_thread_routine cls c)) = false
  /\ reader_reads (log (mach (_reader_thread_routine cls c)))
     = reader_reads (log (mach c)).
Proof.
  destruct c as [[[term running auto lock] w l] p pc]. cbn.
  intros Hlock Hpc. subst lock.
  destruct pc; try discriminate Hpc; cbn; unfold reader_do; cbn;
    unfold record; cbn;
    try (destruct running; cbn);
    unfold reader_reads; rewrite ?filter_app, ?length_app; cbn;
    repeat split; auto; lia.
Qed.

(** X4: while a caller holds the guard and does not release it, the reader
    thread makes no [read_line]: on every class and in every interleaving the
    number of reads of the reader stays what it was, the guard stays with
    the caller, and the reader does not get past its [acquire]. *)
Theorem X4_guard_held_by_caller_stops_reads {W : Type} (cls : Class W)
    (c : config W) (sch : list tid) :
  quiet (fg c) ->
  _auto_reader_lock (self (mach c)) = Some Foreground ->
  holds_guard (rd c) = false ->
  reader_reads (log (mach (run cls sch c))) = reader_reads (log (mach c))
  /\ _auto_reader_lock (self (mach (run cls sch c))) = Some Foreground
  /\ holds_guard (rd (run cls sch c)) = false.
Proof.
  revert c. induction sch as [|t sch IH]; intros c Hq Hlock Hpc.
  - cbn. repeat split; assumption.
  - cbn [run fold_left]. fold (run cls sch (step cls c t)).
    destruct t; cbn [step].
    + destruct (foreground_step_quiet cls c Hq) as (Hq' & Hrd & Hl & Hr).
      destruct (IH (foreground_step cls c) Hq')
        as (Hr2 & Hl2 & Hp2); try congruence.
      repeat split; congruence.
    + destruct (reader_step_locked_out cls c Hlock Hpc) as (Hfg & Hl & Hp & Hr).
      destruct (IH (_reader_thread_routine cls c))
        as (Hr2 & Hl2 & Hp2); try congruence.
      repeat split; congruence.
Qed.

Lemma X4_guard_held_by_caller_stops_reads_witness :
  quiet (fg held_by_caller)
  /\ _auto_reader_lock (self (mach held_by_caller)) = Some Foreground
  /\ holds_guard (rd held_by_caller) = false
  /\ reader_reads
       (log (mach (run Wire [Reader; Foreground; Reader; Foreground; Reader]
                     held_by_caller)))
     = 0.
Proof.
  split; [apply run_file_quiet|]. split; [reflexivity|]. split; [reflexivity|].
  exact (proj1 (@X4_guard_held_by_caller_stops_reads Transport Wire held_by_caller
                  [Reader; Foreground; Reader; Foreground; Reader]
                  (run_file_quiet "main.py" EmptyString) eq_refl eq_refl)).
Defined.

Lemma foreground_step_paused {W : Type} (cls : Class W) (c : config W) :
  keeps_paused (fg c) ->
  _auto_read_enabled (self (mach c)) = false ->
  keeps_paused (fg (foreground_step cls c))
  /\ rd (foreground_step cls c) = rd c
  /\ _auto_read_enabled (self (mach (foreground_step cls c))) = false
  /\ reader_reads (log (mach (foreground_step cls c)))
     = reader_reads (log (mach c)).
Proof.
  intros Hk Hauto. unfold foreground_step.
  destruct (fg c) as [a|e|c0 k] eqn:Hfg.
  - rewrite Hfg. repeat split; assumption.
  - rewrite Hfg. repeat split; assumption.
  - destruct Hk as [Hc Hk].
    pose proof (perform_foreground cls c0 (mach c)) as Hperf.
    destruct (perform cls Foreground c0 (mach c)) as [[r m']|].
    + destruct Hperf as (Hr & _ & Ha).
      destruct r as [r|e]; cbn; repeat split; auto.
    + rewrite Hfg. cbn. repeat split; auto.
Qed.

Lemma reader_step_paused {W : Type} (cls : Class W) (c : config W) :
  _auto_read_enabled (self (mach c)) = false ->
  rd c <> R_read ->
  fg (_reader_thread_routine cls c) = fg c
  /\ _auto_read_enabled (self (mach (_reader_thread_routine cls c))) = false
  /\ rd (_reader_thread_routine cls c) <> R_read
  /\ reader_reads (log (mach (_reader_thread_routine cls c)))
     = reader_reads (log (mach c)).
Proof.
  destruct c as [[[term running auto lock] w l] p pc]. cbn.
  intros Hauto Hpc. subst auto.
  destruct pc; try contradiction; cbn; unfold reader_do; cbn;
    unfold record; cbn;
    try (destruct lock; cbn);
    try (destruct running; cbn);
    unfold reader_reads; rewrite ?filter_app, ?length_app; cbn;
    repeat split; auto; try discriminate; try lia.
Qed.

(** X5: with [_auto_read_enabled] false the reader thread makes no
    [read_line].  If the flag is false, the reader is not already at line 59,
    and the caller does not set the flag to [True], then on every class and
    in every interleaving the number of reads of the reader stays what it was
    and the flag stays false. *)
Theorem X5_auto_read_disabled_stops_reads {W : Type} (cls : Class W)
    (c : config W) (sch : list tid) :
  keeps_paused (fg c) ->
  _auto_read_enabled (self (mach c)) = false ->
  rd c <> R_read ->
  reader_reads (log (mach (run cls sch c))) = reader_reads (log (mach c))
  /\ _auto_read_enabled (self (mach (run cls sch c))) = false.
Proof.
  revert c. induction sch as [|t sch IH]; intros c Hk Hauto Hpc.
  - cbn. split; [reflexivity|assumption].
  - cbn [run fold_left]. fold (run cls sch (step cls c t)).
    destruct t; cbn [step].
    + destruct (foreground_step_paused cls c Hk Hauto) as (Hk' & Hrd & Ha & Hr).
      destruct (IH (foreground_step cls c) Hk' Ha) as (Hr2 & Ha2);
        [congruence|].
      split; congruence.
    + destruct (reader_step_paused cls c Hauto Hpc) as (Hfg & Ha & Hp & Hr).
      destruct (IH (_reader_thread_routine cls c)) as (Hr2 & Ha2);
        try congruence.
      split; congruence.
Qed.

Lemma run_file_keeps_paused (file_name globals_init : string) :
  keeps_paused (run_file file_name globals_init).
Proof.
  destruct globals_init; cbn; repeat split.
Qed.

Lemma X5_auto_read_disabled_stops_reads_witness :
  keeps_paused (fg paused)
  /\ _auto_read_enabled (self (mach paused)) = false
  /\ rd paused <> R_read
  /\ reader_reads (log (mach (run Wire (repeat Reader 20) paused))) = 0.
Proof.
  split; [apply run_file_keeps_paused|]. split; [reflexivity|].
  split; [discriminate|].
  exact (proj1 (@X5_auto_read_disabled_stops_reads Transport Wire paused
                  (repeat Reader 20)
                  (run_file_keeps_paused "main.py" EmptyString) eq_refl
                  (fun H : rd paused = R_read =>
                     eq_ind R_start
                       (fun pc => match pc with R_start => True | _ => False end)
                       I R_read H))).
Defined.

(** ** What the reader thread does and does not do *)

Lemma foreground_step_events {W : Type} (cls : Class W) (c : config W) :
  forallb reader_event_ok (log (mach (foreground_step cls c)))
  = forallb reader_event_ok (log (mach c)).
Proof.
  unfold foreground_step. destruct (fg c) as [a|e|c0 k]; try reflexivity.
  pose proof (perform_foreground cls c0 (mach c)) as Hperf.
  destruct (perform cls Foreground c0 (mach c)) as [[r m']|]; [|reflexivity].
  destruct Hperf as (_ & Hev & _). destruct r; exact Hev.
Qed.

Lemma sleep_secs_ok (x : string) :
  Qeq_bool (sleep_secs x) (1 # 10) || Qeq_bool (sleep_secs x) 0 = true.
Proof.
  unfold sleep_secs. destruct (String.eqb x EmptyString); reflexivity.
Qed.

Lemma reader_step_events {W : Type} (cls : Class W) (c : config W) :
  forallb reader_event_ok (log (mach c)) = true ->
  forallb reader_event_ok (log (mach (_reader_thread_routine cls c))) = true.
Proof.
  destruct c as [[[term running auto lock] w l] p pc]. cbn. intros Hl.
  destruct pc; cbn; unfold reader_do; cbn; unfold record; cbn;
    try (destruct lock; cbn);
    try (destruct running; cbn);
    try (destruct auto; cbn);
    try (destruct (read_line cls w) as [[x'|e'] w']; cbn);
    rewrite ?forallb_app, ?Hl; cbn; rewrite ?sleep_secs_ok; auto.
Qed.

(** X6: whatever the class and the caller, all that the reader thread ever
    does to the connection is [acquire], [release], [read_line] and
    [time.sleep] of 0.1 or of 0 seconds: in every interleaving, started on a
    fresh connection, it makes no other call; it never writes to the
    transport, never disconnects and never touches a file. *)
Theorem X6_reader_only_locks_reads_sleeps {W : Type} (cls : Class W) (w : W)
    (p : prog unit) (sch : list tid) :
  forallb reader_event_ok (log (mach (run cls sch (start w p)))) = true.
Proof.
  assert (H : forall c : config W,
             forallb reader_event_ok (log (mach c)) = true ->
             forallb reader_event_ok (log (mach (run cls sch c))) = true).
  { induction sch as [|t sch IH]; intros c Hc; [exact Hc|].
    cbn [run fold_left]. fold (run cls sch (step cls c t)).
    apply IH. destruct t; cbn [step].
    - rewrite foreground_step_events. exact Hc.
    - apply reader_step_events, Hc. }
  apply H. reflexivity.
Qed.

Lemma run_app {W : Type} (cls : Class W) (s1 s2 : list tid) (c : config W) :
  run cls (s1 ++ s2) c = run cls s2 (run cls s1 c).
Proof. unfold run. apply fold_left_app. Qed.

Lemma reads_results_nil (n : nat) :
  reads_results (S n) [] = EmptyString :: reads_results n [].
Proof.
  unfold reads_results. rewrite !firstn_nil. cbn.
  rewrite Nat.sub_0_r. reflexivity.
Qed.

Lemma reads_results_cons (n : nat) (x : string) (q : list string) :
  reads_results (S n) (x :: q) = x :: reads_results n q.
Proof. reflexivity. Qed.

Lemma reader_round (q wr : list string) (l : list event) (p : prog unit) :
  run Wire (repeat Reader 6)
    {| mach := {| self := set_reader_running true (__init__ None);
                  world := {| written := wr; inbound := q |};
                  log := l |};
       fg := p;
       rd := R_test |}
  = {| mach := {| self := set_reader_running true (__init__ None);
                  world := {| written := wr; inbound := skipn 1 q |};
                  log := (l ++ iteration_events (hd EmptyString q))%list |};
       fg := p;
       rd := R_test |}.
Proof.
  destruct q as [|x q]; cbn; unfold reader_do; cbn;
    unfold with_self, record; cbn; rewrite <- !app_assoc; reflexivity.
Qed.

Lemma reads_results_step (n : nat) (q : list string) :
  reads_results (S n) q = hd EmptyString q :: reads_results n (skipn 1 q).
Proof.
  destruct q as [|x q]; [apply reads_results_nil|apply reads_results_cons].
Qed.

Lemma reader_rounds (n : nat) :
  forall (q wr : list string) (l : list event) (p : prog unit),
    run Wire (repeat Reader (6 * n))
      {| mach := {| self := set_reader_running true (__init__ None);
                    world := {| written := wr; inbound := q |};
                    log := l |};
         fg := p;
         rd := R_test |}
    = {| mach := {| self := set_reader_running true (__init__ None);
                    world := {| written := wr; inbound := skipn n q |};
                    log := (l ++ flat_map iteration_events (reads_results n q))%list |};
         fg := p;
         rd := R_test |}.
Proof.
  induction n as [|n IH]; intros q wr l p.
  - cbn. rewrite app_nil_r. reflexivity.
  - replace (6 * S n) with (6 + 6 * n) by lia.
    rewrite repeat_app, run_app, reader_round, IH.
    rewrite reads_results_step, skipn_skipn, Nat.add_1_r.
    cbn [flat_map]. rewrite <- app_assoc. reflexivity.
Qed.

(** X7: left alone on a fresh connection, the reader thread goes round its
    loop once every six steps and drains the wire in order.  After its first
    step and [n] rounds it has made exactly [n] reads, which took the first
    [n] waiting lines (and returned the empty string once nothing was left),
    each round being [acquire], [read_line], [release], and a sleep of 0
    seconds after a non-empty line and 0.1 seconds after an empty one; it is
    back at the loop test with the guard free. *)
Theorem X7_reader_drains_wire (n : nat) (q wr : list string) :
  run Wire (repeat Reader (1 + 6 * n))
    (start {| written := wr; inbound := q |} (Ret tt))
  = {| mach := {| self := set_reader_running true (__init__ None);
                  world := {| written := wr; inbound := skipn n q |};
                  log := flat_map
                           (fun x : string =>
                              [(Reader, LockAcquire); (Reader, ReadLine);
                               (Reader, LockRelease);
                               (Reader,
                                Sleep (if String.eqb x EmptyString
                                       then (1 # 10)%Q else 0%Q))])
                           (firstn n q ++ repeat EmptyString (n - length q)) |};
       fg := Ret tt;
       rd := R_test |}.
Proof.
  rewrite repeat_app, run_app.
  change (run Wire (repeat Reader 1)
            (start {| written := wr; inbound := q |} (Ret tt)))
    with {| mach := {| self := set_reader_running true (__init__ None);
                       world := {| written := wr; inbound := q |};
                       log := [] |};
            fg := Ret tt;
            rd := R_test |}.
  rewrite reader_rounds. reflexivity.
Qed.

(** ** File names in the statements sent *)

Lemma string_app_assoc (a b c : string) : (a ++ b) ++ c = a ++ (b ++ c).
Proof.
  induction a as [|x a IH]; cbn; [reflexivity|]. rewrite IH. reflexivity.
Qed.

(** X8: the file name goes between the quotes of the statement as it is.  A
    name in which a quote and a closing parenthesis occur ends the string
    literal early: the line [remove_file] builds for the name made of [a],
    a quote, a closing parenthesis and [b] is the complete statement for [a],
    followed by [b] and a dangling quote; the same happens in the [with open]
    line of [run_file]. *)
Theorem X8_file_name_is_not_escaped (a b : string) :
  format remove_file_stmt (a ++ dquote ++ ")" ++ b)
  = format remove_file_stmt a ++ b ++ dquote ++ ")"
  /\ format run_file_open (a ++ dquote ++ ") as f:" ++ b)
     = format run_file_open a ++ b ++ dquote ++ ") as f:".
Proof.
  rewrite !format_remove_file_stmt, !format_run_file_open.
  unfold os_remove. split.
  - repeat (rewrite string_app_assoc; cbn). reflexivity.
  - repeat (rewrite string_app_assoc; cbn). reflexivity.
Qed.

(** X9: against a class whose [send_line] gives [ending] a default,
    [remove_file] does go through: it is the call of [send_line] with the
    statement [import os; os.remove("<file_name>")] and that default, with the
    same outcome and the same effect on the transport, and it changes no
    attribute. *)
Theorem X9_remove_file_with_default_ending {W : Type} (cls : Class W)
    (file_name d : string) (m : machine W) :
  send_line_default cls = Some d ->
  exec cls Foreground (remove_file file_name) m
  = Some (fst (send_line cls
                 ("import os; os.remove(" ++ dquote ++ file_name ++ dquote ++ ")")
                 d (world m)),
          {| self := self m;
             world := snd (send_line cls
                             ("import os; os.remove(" ++ dquote ++ file_name
                              ++ dquote ++ ")")
                             d (world m));
             log := log m
                    ++ [(Foreground,
                         SendLine ("import os; os.remove(" ++ dquote ++ file_name
                                   ++ dquote ++ ")") None)] |}).
Proof.
  intros Hsig. apply (remove_file_default_ending cls file_name m Hsig).
Qed.

Lemma X9_remove_file_with_default_ending_witness :
  send_line_default Wire_default_CR = Some CR
  /\ exec Wire_default_CR Foreground (remove_file "boot.py") (fresh idle)
     = Some (Ok tt,
             {| self := __init__ None;
                world := {| written := [("import os; os.remove(" ++ dquote
                                         ++ "boot.py" ++ dquote ++ ")") ++ CR];
                            inbound := [] |};
                log := [(Foreground,
                         SendLine ("import os; os.remove(" ++ dquote
                                   ++ "boot.py" ++ dquote ++ ")") None)] |}).
Proof.
  split; [reflexivity|].
  exact (@X9_remove_file_with_default_ending Transport Wire_default_CR
           "boot.py" CR (fresh idle) eq_refl).
Defined.

Lemma reader_step_moves {W : Type} (cls : Class W) (c : config W) :
  guarded c ->
  stopped (rd c) = true \/ rd (_reader_thread_routine cls c) <> rd c.
Proof.
  destruct c as [[[term running auto lock] w l] p pc].
  unfold guarded; cbn. intros [_ Hl]. subst lock.
  destruct pc; cbn; unfold reader_do; cbn; auto; right;
    try (destruct running; cbn);
    try (destruct auto; cbn);
    try (destruct (read_line cls w) as [[x'|e'] w']; cbn);
    discriminate.
Qed.

(** X10: a caller that leaves the lock alone never holds up the reader
    thread.  In every interleaving with such a caller, started on a fresh
    connection of any class, a reader that has not left its routine is able
    to take its next step: it is never kept waiting at [acquire]. *)
Theorem X10_reader_never_blocked_by_quiet_caller {W : Type} (cls : Class W)
    (w : W) (p : prog unit) (sch : list tid) :
  quiet p ->
  stopped (rd (run cls sch (start w p))) = true
  \/ rd (step cls (run cls sch (start w p)) Reader)
     <> rd (run cls sch (start w p)).
Proof.
  intros Hq.
  assert (Hg : guarded (run cls sch (start w p))).
  { apply run_guarded. split; [exact Hq|reflexivity]. }
  exact (reader_step_moves cls Hg).
Qed.

Lemma X10_reader_never_blocked_by_quiet_caller_witness :
  quiet (run_file "main.py" "x=1")
  /\ (stopped (rd (run Wire [Reader; Reader; Foreground]
                     (start idle (run_file "main.py" "x=1")))) = true
      \/ rd (step Wire
               (run Wire [Reader; Reader; Foreground]
                  (start idle (run_file "main.py" "x=1"))) Reader)
         <> rd (run Wire [Reader; Reader; Foreground]
                  (start idle (run_file "main.py" "x=1")))).
Proof.
  split; [apply run_file_quiet|].
  exact (@X10_reader_never_blocked_by_quiet_caller Transport Wire idle
           (run_file "main.py" "x=1") [Reader; Reader; Foreground]
           (run_file_quiet "main.py" "x=1")).
Defined.

(** * The flash dialog *)

(** ** The output of the flashing script *)

Lemma pipe_loop_flush (stream : list Byte.byte) (j : FlashJob) :
  pipe_loop stream j = flush (receive_all stream j).
Proof.
  revert j. induction stream as [|x rest IH]; intros j; [reflexivity|].
  cbn. apply IH.
Qed.

Lemma receive_all_app (s1 s2 : list Byte.byte) (j : FlashJob) :
  receive_all (s1 ++ s2) j = receive_all s2 (receive_all s1 j).
Proof. unfold receive_all. apply fold_left_app. Qed.

Lemma flush_output (j : FlashJob) : _flash_output (flush j) = pending_text j.
Proof.
  unfold flush, pending_text. cbn.
  destruct (delete j) as [|d]; cbn [Nat.ltb Nat.leb]; [|reflexivity].
  rewrite Nat.sub_0_r, firstn_all. reflexivity.
Qed.

Lemma removelast_firstn_sub {A : Type} (n : nat) (l : list A) :
  n <= length l -> removelast (firstn n l) = firstn (n - 1) l.
Proof.
  destruct n as [|n]; intros H; [reflexivity|].
  cbn [Nat.sub]. rewrite Nat.sub_0_r. apply removelast_firstn. lia.
Qed.

Lemma removelast_whole {A : Type} (l : list A) :
  (firstn (length l - 1) l ++ [])%list = removelast l.
Proof.
  rewrite app_nil_r, removelast_firstn_len, Nat.sub_1_r. reflexivity.
Qed.

(** One byte of a calm stream moves the text as a terminal would. *)
Lemma receive_pending (s : pace) (x : Byte.byte) (rest : list Byte.byte)
    (j : FlashJob) :
  in_pace s j ->
  calm s (x :: rest) = true ->
  exists s' : pace,
    in_pace s' (receive x j)
    /\ calm s' rest = true
    /\ pending_text (receive x j)
       = (if is_backspace x then removelast (pending_text j)
          else (pending_text j ++ [x])%list).
Proof.
  destruct j as [out b d e]. unfold receive, pending_text. cbn [calm].
  destruct (is_backspace x) eqn:Hbs; cbn [andb orb negb].
  - destruct s; cbn; intros Hp Hc; try discriminate Hc.
    + subst d. cbn. exists AfterBackspace; cbn; repeat split; auto; try lia.
      rewrite Nat.sub_0_r, firstn_all. apply removelast_whole.
    + destruct Hp as [Hd Hb]. subst b.
      destruct d as [|d]; [lia|]. cbn.
      exists AfterBackspace; cbn; repeat split; auto; try lia.
      rewrite !app_nil_r, removelast_firstn_sub.
      * f_equal. lia.
      * lia.
  - destruct (is_space x) eqn:Hsp; intros Hp Hc.
    + exists Clean. cbn. repeat split; auto.
      rewrite Nat.sub_0_r, firstn_all.
      destruct d as [|d]; cbn [Nat.ltb Nat.leb].
      * rewrite Nat.sub_0_r, firstn_all. reflexivity.
      * reflexivity.
    + cbn. rewrite app_assoc.
      destruct s; cbn in *.
      * exists Clean; cbn; repeat split; auto.
      * exists AfterBackspaceText; cbn; repeat split; auto; lia.
      * exists AfterBackspaceText; cbn; repeat split; auto.
Qed.

Lemma receive_all_pending (stream : list Byte.byte) :
  forall (s : pace) (j : FlashJob),
    in_pace s j ->
    calm s stream = true ->
    pending_text (receive_all stream j) = terminal (pending_text j) stream.
Proof.
  induction stream as [|x rest IH]; intros s j Hp Hc; [reflexivity|].
  destruct (receive_pending s x rest j Hp Hc) as (s' & Hp' & Hc' & Htxt).
  cbn. fold (receive_all rest (receive x j)).
  rewrite (IH s' _ Hp' Hc'), Htxt. reflexivity.
Qed.

(** X12: on a calm stream, one where no backspace comes after a word that
    itself came after a backspace with no white space in between, the output
    kept for the dialog is what a terminal would show: every backspace has
    taken away the byte before it and every other byte has been added. *)
Theorem X12_flash_output_is_terminal_text (stream output : list Byte.byte)
    (signals : list signal) :
  calm Clean stream = true ->
  _flash_output
    (pipe_loop stream
       {| _flash_output := output; buf := []; delete := 0; emitted := signals |})
  = terminal output stream.
Proof.
  intros Hc. rewrite pipe_loop_flush, flush_output.
  rewrite (receive_all_pending stream Clean
             {| _flash_output := output; buf := []; delete := 0;
                emitted := signals |} eq_refl Hc).
  unfold pending_text. cbn.
  rewrite Nat.sub_0_r, firstn_all, app_nil_r. reflexivity.
Qed.

Lemma X12_flash_output_is_terminal_text_witness :
  calm Clean [Byte.x31; Byte.x25; Byte.x08; Byte.x08; Byte.x32; Byte.x25;
              Byte.x0a] = true
  /\ _flash_output
       (pipe_loop [Byte.x31; Byte.x25; Byte.x08; Byte.x08; Byte.x32; Byte.x25;
                   Byte.x0a]
          {| _flash_output := [Byte.x3a]; buf := []; delete := 0; emitted := [] |})
     = terminal [Byte.x3a]
         [Byte.x31; Byte.x25; Byte.x08; Byte.x08; Byte.x32; Byte.x25; Byte.x0a].
Proof.
  split; [reflexivity|].
  exact (X12_flash_output_is_terminal_text
           [Byte.x31; Byte.x25; Byte.x08; Byte.x08; Byte.x32; Byte.x25; Byte.x0a]
           [Byte.x3a] [] eq_refl).
Defined.

Lemma pipe_loop_no_backspace (stream : list Byte.byte) :
  forall (out b : list Byte.byte) (e : list signal),
    forallb (fun x => negb (is_backspace x)) stream = true ->
    _flash_output
      (pipe_loop stream {| _flash_output := out; buf := b; delete := 0; emitted := e |})
    = (out ++ b ++ stream)%list
    /\ emitted
         (pipe_loop stream {| _flash_output := out; buf := b; delete := 0; emitted := e |})
       = (e ++ repeat flash_output_signal (1 + length (filter is_space stream)))%list.
Proof.
  induction stream as [|x rest IH]; intros out b e Hs.
  - cbn. rewrite app_nil_r. split; reflexivity.
  - cbn in Hs. apply andb_true_iff in Hs. destruct Hs as [Hx Hrest].
    apply negb_true_iff in Hx.
    cbn [pipe_loop filter]. unfold receive. rewrite Hx. cbn [andb orb negb].
    destruct (is_space x); cbn [flush Nat.ltb Nat.leb _flash_output buf delete
                                emitted app].
    + destruct (IH (out ++ b)%list [x] (e ++ [flash_output_signal])%list Hrest)
        as [Ho He].
      rewrite Ho, He, <- !app_assoc. cbn. split; reflexivity.
    + destruct (IH out (b ++ [x])%list e Hrest) as [Ho He].
      rewrite Ho, He, <- !app_assoc. cbn. split; reflexivity.
Qed.

(** X11: a stream without backspaces is shown as it is.  The output kept for
    the dialog ends up as what it was followed by the stream, and the dialog
    is told to redraw once for every white-space byte (carriage return, line
    feed, tab, space) and once at the end of the stream, no more. *)
Theorem X11_flash_output_without_backspaces (stream output : list Byte.byte)
    (signals : list signal) :
  forallb (fun x => negb (is_backspace x)) stream = true ->
  _flash_output
    (pipe_loop stream
       {| _flash_output := output; buf := []; delete := 0; emitted := signals |})
  = (output ++ stream)%list
  /\ emitted
       (pipe_loop stream
          {| _flash_output := output; buf := []; delete := 0; emitted := signals |})
     = (signals
        ++ repeat flash_output_signal (1 + length (filter is_space stream)))%list.
Proof.
  intros Hs. apply (pipe_loop_no_backspace stream output [] signals Hs).
Qed.

Lemma X11_flash_output_without_backspaces_witness :
  forallb (fun x => negb (is_backspace x)) [Byte.x4f; Byte.x4b; Byte.x0a] = true
  /\ _flash_output
       (pipe_loop [Byte.x4f; Byte.x4b; Byte.x0a]
          {| _flash_output := []; buf := []; delete := 0; emitted := [] |})
     = [Byte.x4f; Byte.x4b; Byte.x0a]
  /\ emitted
       (pipe_loop [Byte.x4f; Byte.x4b; Byte.x0a]
          {| _flash_output := []; buf := []; delete := 0; emitted := [] |})
     = [flash_output_signal; flash_output_signal].
Proof.
  split; [reflexivity|].
  exact (X11_flash_output_without_backspaces [Byte.x4f; Byte.x4b; Byte.x0a]
           [] [] eq_refl).
Defined.

Lemma receive_all_backspaces (n : nat) :
  forall (out b : list Byte.byte) (d : nat) (e : list signal),
    receive_all (repeat Byte.x08 n)
      {| _flash_output := out; buf := b; delete := S d; emitted := e |}
    = {| _flash_output := out; buf := b; delete := S d + n; emitted := e |}.
Proof.
  induction n as [|n IH]; intros out b d e.
  - cbn. rewrite Nat.add_0_r. reflexivity.
  - cbn [repeat receive_all fold_left].
    change (receive Byte.x08
              {| _flash_output := out; buf := b; delete := S d; emitted := e |})
      with {| _flash_output := out; buf := b; delete := S d + 1; emitted := e |}.
    fold (receive_all (repeat Byte.x08 n)
            {| _flash_output := out; buf := b; delete := S d + 1; emitted := e |}).
    replace (S d + 1) with (S (S d)) by lia.
    rewrite IH. f_equal. lia.
Qed.

Lemma receive_all_plain (t : list Byte.byte) :
  forall (out b : list Byte.byte) (d : nat) (e : list signal),
    forallb plain t = true ->
    receive_all t {| _flash_output := out; buf := b; delete := d; emitted := e |}
    = {| _flash_output := out; buf := (b ++ t)%list; delete := d; emitted := e |}.
Proof.
  induction t as [|x t IH]; intros out b d e Ht.
  - cbn. rewrite app_nil_r. reflexivity.
  - cbn in Ht. apply andb_true_iff in Ht. destruct Ht as [Hx Ht].
    unfold plain in Hx. apply andb_true_iff in Hx. destruct Hx as [Hbs Hsp].
    apply negb_true_iff in Hbs. apply negb_true_iff in Hsp.
    cbn [receive_all fold_left]. unfold receive at 2.
    rewrite Hbs, Hsp. cbn [andb orb negb _flash_output buf delete emitted].
    fold (receive_all t
            {| _flash_output := out; buf := (b ++ [x])%list; delete := d;
               emitted := e |}).
    rewrite (IH out (b ++ [x])%list d e Ht), <- app_assoc. reflexivity.
Qed.

(** X13: backspaces count against the output that was already flushed, also
    those that come after new text.  For a stream of [a] backspaces, at least
    one, then a word [t] without white space, then [b] more backspaces, the
    output ends up as the old output without its last [a + b] bytes (empty if
    there are fewer), followed by the whole word [t]: the backspaces after the
    word do not delete from the word. *)
Theorem X13_backspaces_delete_from_flushed_output (a b : nat)
    (t output : list Byte.byte) (signals : list signal) :
  1 <= a ->
  forallb plain t = true ->
  _flash_output
    (pipe_loop (repeat Byte.x08 a ++ t ++ repeat Byte.x08 b)
       {| _flash_output := output; buf := []; delete := 0; emitted := signals |})
  = (firstn (length output - (a + b)) output ++ t)%list.
Proof.
  intros Ha Ht. destruct a as [|a]; [lia|].
  rewrite pipe_loop_flush, !receive_all_app.
  cbn [repeat receive_all fold_left].
  change (receive Byte.x08
            {| _flash_output := output; buf := []; delete := 0;
               emitted := signals |})
    with {| _flash_output := (output ++ [])%list; buf := []; delete := 0 + 1;
            emitted := (signals ++ [flash_output_signal])%list |}.
  fold (receive_all (repeat Byte.x08 a)
          {| _flash_output := (output ++ [])%list; buf := []; delete := 0 + 1;
             emitted := (signals ++ [flash_output_signal])%list |}).
  rewrite app_nil_r. cbn [Nat.add].
  rewrite receive_all_backspaces, (receive_all_plain t _ _ _ _ Ht).
  replace (1 + a) with (S a) by lia.
  rewrite receive_all_backspaces.
  unfold flush. cbn. reflexivity.
Qed.

Lemma X13_backspaces_delete_from_flushed_output_witness :
  1 <= 1
  /\ forallb plain [Byte.x63] = true
  /\ _flash_output
       (pipe_loop (repeat Byte.x08 1 ++ [Byte.x63] ++ repeat Byte.x08 1)
          {| _flash_output := [Byte.x61; Byte.x62]; buf := []; delete := 0;
             emitted := [] |})
     = [Byte.x63].
Proof.
  split; [lia|]. split; [reflexivity|].
  exact (@X13_backspaces_delete_from_flushed_output 1 1 [Byte.x63]
           [Byte.x61; Byte.x62] [] (le_n 1) eq_refl).
Defined.

Lemma emitted_receive (x : Byte.byte) (j : FlashJob) :
  exists n : nat,
    emitted (receive x j) = (emitted j ++ repeat flash_output_signal n)%list
    /\ n <= 1.
Proof.
  unfold receive.
  destruct ((is_backspace x && (delete j =? 0))
            || (negb (is_backspace x) && is_space x));
    destruct (is_backspace x); cbn;
    first [ exists 1; split; [reflexivity|lia]
          | exists 0; cbn; rewrite app_nil_r; split; [reflexivity|lia] ].
Qed.

Lemma emitted_pipe_loop (stream : list Byte.byte) :
  forall j : FlashJob,
    exists n : nat,
      emitted (pipe_loop stream j)
      = (emitted j ++ repeat flash_output_signal n)%list
      /\ 1 <= n <= 1 + length stream.
Proof.
  induction stream as [|x rest IH]; intros j.
  - exists 1. cbn. split; [reflexivity|lia].
  - cbn [pipe_loop length].
    destruct (IH (receive x j)) as (n & Hn & Hb).
    destruct (emitted_receive x j) as (k & Hk & Hk1).
    exists (k + n). rewrite Hn, Hk, <- app_assoc, repeat_app.
    split; [reflexivity|lia].
Qed.

(** X14: [_flash_job] reports the end of the job once, and last, whenever
    [Popen] returns or raises [FileNotFoundError].  When the script cannot be
    found the code is -1, no output signal is emitted and the output is left
    as it was; when the script runs the signals are at least one output
    signal, at most one for each byte read plus one, and then the finished
    signal with the exit code.  Any other exception of [Popen] is not caught:
    it leaves the method, no signal is emitted at all and the output is left
    as it was. *)
Theorem X14_flash_job_finished_signal
    (popen : list string -> popen_result)
    (python_path port firmware_file : string) (erase_flash debug_mode : bool)
    (output : list Byte.byte) (signals : list signal) :
  match popen (flash_params python_path port firmware_file erase_flash
                 debug_mode) with
  | Popen_FileNotFoundError =>
      _flash_job popen python_path port firmware_file erase_flash debug_mode
        output signals
      = (Ok tt, (output, (signals ++ [flash_finished_signal (-1)])%list))
  | Popen_raises e =>
      _flash_job popen python_path port firmware_file erase_flash debug_mode
        output signals
      = (Raised e, (output, signals))
  | Popen_started stream code =>
      exists n : nat,
        1 <= n <= 1 + length stream
        /\ fst (_flash_job popen python_path port firmware_file erase_flash
                  debug_mode output signals) = Ok tt
        /\ snd (snd (_flash_job popen python_path port firmware_file erase_flash
                       debug_mode output signals))
           = (signals ++ repeat flash_output_signal n
              ++ [flash_finished_signal code])%list
  end.
Proof.
  unfold _flash_job.
  destruct (popen (flash_params python_path port firmware_file erase_flash
                     debug_mode)) as [|e|stream c]; try reflexivity.
  destruct (emitted_pipe_loop stream
              {| _flash_output := output; buf := []; delete := 0;
                 emitted := signals |}) as (n & Hn & Hb).
  exists n. cbn [snd fst]. rewrite Hn, <- app_assoc. cbn [emitted].
  split; [exact Hb|]. split; reflexivity.
Qed.

(** ** The firmware directory *)

Lemma split_on_not_nil (sep : ascii) (s : string) : split_on sep s <> [].
Proof.
  destruct s as [|c rest]; cbn; [discriminate|].
  destruct (Ascii.eqb c sep); [discriminate|].
  destruct (split_on sep rest); discriminate.
Qed.

Lemma split_on_app (sep : ascii) (d b : string) :
  split_on sep (d ++ String sep b) = (split_on sep d ++ split_on sep b)%list.
Proof.
  induction d as [|c d IH]; cbn.
  - rewrite Ascii.eqb_refl. reflexivity.
  - rewrite IH. destruct (Ascii.eqb c sep); [reflexivity|].
    pose proof (split_on_not_nil sep d) as Hd.
    destruct (split_on sep d) as [|h t]; [contradiction|]. reflexivity.
Qed.

Lemma split_on_no_slash (b : string) :
  no_slash b = true -> split_on "/"%char b = [b].
Proof.
  unfold no_slash. induction b as [|c b IH]; cbn; [reflexivity|].
  intros H. apply andb_true_iff in H. destruct H as [Hc Hb].
  apply negb_true_iff in Hc. rewrite Hc, (IH Hb). reflexivity.
Qed.

Lemma join_split_on (sep : ascii) (s : string) :
  join_with (String sep EmptyString) (split_on sep s) = s.
Proof.
  induction s as [|c s IH]; cbn; [reflexivity|].
  destruct (Ascii.eqb c sep) eqn:Hc.
  - apply Ascii.eqb_eq in Hc. subst c.
    pose proof (split_on_not_nil sep s) as Hs.
    cbn [join_with].
    destruct (split_on sep s) as [|h t] eqn:Hsplit; [contradiction|].
    rewrite IH. reflexivity.
  - pose proof (split_on_not_nil sep s) as Hs.
    destruct (split_on sep s) as [|h t] eqn:Hsplit; [contradiction|].
    cbn [join_with] in *. destruct t as [|h' t].
    + rewrite IH. reflexivity.
    + rewrite <- IH. reflexivity.
Qed.

(** X15: [_pick_firmware] remembers the directory of the file that was
    picked.  For a path made of [d], a slash and a file name without slash,
    the path is put into the edit field, the directory remembered is [d], and
    the next file dialog opens in [d], unless [d] is empty (a file in the
    root directory), in which case it opens with no directory.  A path
    without any slash leaves the empty directory.  A cancelled dialog changes
    nothing. *)
Theorem X15_pick_firmware_remembers_directory (d b : string) (st : FirmwareChoice) :
  no_slash b = true ->
  firmwarePathEdit (_pick_firmware (d ++ "/" ++ b) st) = d ++ "/" ++ b
  /\ last_firmware_directory (_pick_firmware (d ++ "/" ++ b) st) = d
  /\ firmware_dir (_pick_firmware (d ++ "/" ++ b) st)
     = (if String.eqb d EmptyString then None else Some d)
  /\ firmware_directory b = EmptyString
  /\ _pick_firmware EmptyString st = st.
Proof.
  intros Hb.
  assert (Hdir : firmware_directory (d ++ "/" ++ b) = d).
  { unfold firmware_directory.
    change (d ++ "/" ++ b) with (d ++ String "/"%char b).
    rewrite split_on_app, (split_on_no_slash b Hb), removelast_last.
    apply (join_split_on "/"%char d). }
  assert (Htruthy : truthy (d ++ "/" ++ b) = true).
  { destruct d; reflexivity. }
  unfold _pick_firmware, firmware_dir. rewrite Htruthy. cbn - [String.append].
  rewrite Hdir. repeat split.
  - destruct d; reflexivity.
  - unfold firmware_directory. rewrite (split_on_no_slash b Hb). reflexivity.
Qed.

Lemma X15_pick_firmware_remembers_directory_witness :
  no_slash "esp8266.bin" = true
  /\ last_firmware_directory
       (_pick_firmware ("C:/firmware" ++ "/" ++ "esp8266.bin")
          {| firmwarePathEdit := EmptyString;
             last_firmware_directory := EmptyString |})
     = "C:/firmware".
Proof.
  split; [reflexivity|].
  exact (proj1 (proj2 (X15_pick_firmware_remembers_directory "C:/firmware"
                         "esp8266.bin"
                         {| firmwarePathEdit := EmptyString;
                            last_firmware_directory := EmptyString |}
                         eq_refl))).
Defined.
